(** * Release-notes decision pipeline: a shallow embedding

    The Python sources embedded here are
    - [rn/filtering.py]      the deterministic, rule-based classifier,
    - [rn/schema.py]         the contract of an oracle (LLM) decision,
    - [rn/filtering_llm.py]  the escalation gateway,
    - [main.py]              the normalizer and the orchestrator,
    - [rn/review.py]         the review-manifest builder,
    - [rn/render.py]         the Markdown renderer,
    - [rn/harvest.py]        the cache directory and the commit links of a
                             repository address.

    Conventions of the embedding.
    - A Python [str] is a [string]: the bytes of its UTF-8 encoding.  Case
      folding, whitespace and the regular-expression classes are the ASCII
      ones; bytes above 127 are neither letters, digits nor spaces.  On an
      ASCII text they are those of the code; Python's own are wider on other
      texts ([str.strip] and [\s] take U+00A0, [\w] and [\d] take the
      letters and digits of every script), so a property that says how a
      text is stripped, matched or classified is stated for texts that
      satisfy [isascii].
    - A Python value of type [Any] is a [pyval].  A [float] is carried by the
      rational it denotes, and a quotient is exact where the code rounds it
      to the nearest binary64.
    - A [dict] is an association list with unique keys in insertion order.
    - An exception is the [Raise] case of [result].
    - The dicts built by the pipeline live in a [heap] and lists hold their
      locations, because [normalize_review_status] updates them in place and
      [all_items] shares them with [decided]. *)

From Stdlib Require Import ZArith QArith Ascii String List Bool Lia.
From Stdlib Require Import DecimalString.
From stdpp Require Import base option list strings.

Local Open Scope string_scope.
Local Open Scope list_scope.

Set Warnings "-register-all".

(** ** Python values *)

Inductive pyval : Type :=
| VNone
| VBool (b : bool)
| VInt (z : Z)
| VFloat (q : Q)
| VStr (s : string)
| VList (l : list pyval)
| VDict (d : list (string * pyval)).

(** [dict]: keys are strings in every dict of this program. *)
Abbreviation dict := (list (string * pyval)) (only parsing).

Inductive exn : Type :=
| AttributeError
| TypeError
| ValidationError
| ExternalError (msg : string).

Inductive result (A : Type) : Type :=
| Ok (a : A)
| Raise (e : exn).
Arguments Ok {A} a.
Arguments Raise {A} e.

#[global] Instance result_ret : MRet result := fun _ a => Ok a.
#[global] Instance result_bind : MBind result := fun _ _ f m =>
  match m with
  | Ok a => f a
  | Raise e => Raise e
  end.

Definition is_ok {A} (m : result A) : bool :=
  match m with Ok _ => true | Raise _ => false end.

(** ** Dictionaries *)

Module Dict.

(** [d.get(k)]: [None] here is the absent key. *)
Fixpoint lookup (k : string) (d : dict) : option pyval :=
  match d with
  | [] => None
  | (k', v) :: d' => if String.eqb k k' then Some v else lookup k d'
  end.

(** [d.get(k)] as Python sees it: the absent key reads as the value [None]. *)
Definition get (k : string) (d : dict) : pyval :=
  match lookup k d with Some v => v | None => VNone end.

(** [d.get(k, dflt)] *)
Definition get_default (k : string) (dflt : pyval) (d : dict) : pyval :=
  match lookup k d with Some v => v | None => dflt end.

(** [k in d] *)
Definition mem (k : string) (d : dict) : bool :=
  match lookup k d with Some _ => true | None => false end.

(** [d[k] = v]: an existing key keeps its place, a new key goes last. *)
Fixpoint set (k : string) (v : pyval) (d : dict) : dict :=
  match d with
  | [] => [(k, v)]
  | (k', v') :: d' =>
      if String.eqb k k' then (k', v) :: d' else (k', v') :: set k v d'
  end.

(** [d.update(u)]: the keys of [u] are written in order. *)
Definition update (u : dict) (d : dict) : dict :=
  fold_left (fun acc kv => set (fst kv) (snd kv) acc) u d.

End Dict.

(** ** Characters and strings *)

Definition code (c : ascii) : N := N_of_ascii c.

Definition in_range (lo hi : N) (c : ascii) : bool :=
  (lo <=? code c)%N && (code c <=? hi)%N.

Definition is_upper (c : ascii) : bool := in_range 65 90 c.
Definition is_lower (c : ascii) : bool := in_range 97 122 c.
Definition is_alpha (c : ascii) : bool := is_upper c || is_lower c.
Definition is_digit (c : ascii) : bool := in_range 48 57 c.
(** [\w] *)
Definition is_word (c : ascii) : bool :=
  is_alpha c || is_digit c || (code c =? 95)%N.
(** [str.isspace] and [\s]: tab, newline, vertical tab, form feed, carriage
    return, the four separators 28..31 and the space. *)
Definition is_space (c : ascii) : bool :=
  in_range 9 13 c || in_range 28 31 c || (code c =? 32)%N.

Definition lower_ascii (c : ascii) : ascii :=
  if is_upper c then ascii_of_N (code c + 32) else c.

Definition chars (s : string) : list ascii := list_ascii_of_string s.
Definition str (l : list ascii) : string := string_of_list_ascii l.

(** [s.lower()] *)
Definition lower (s : string) : string := str (map lower_ascii (chars s)).

Fixpoint drop_spaces (l : list ascii) : list ascii :=
  match l with
  | [] => []
  | c :: l' => if is_space c then drop_spaces l' else l
  end.

(** [s.strip()] *)
Definition strip (s : string) : string :=
  str (rev (drop_spaces (rev (drop_spaces (chars s))))).

(** [s.startswith(p)] *)
Definition startswith (p s : string) : bool := String.prefix p s.

(** [sub in s] *)
Fixpoint contains (sub s : string) : bool :=
  String.prefix sub s ||
  match s with
  | EmptyString => false
  | String _ s' => contains sub s'
  end.

(** [s.split(sep, 1)] for a one-character separator: [None] when the separator
    does not occur (Python returns the one-element list). *)
Fixpoint split_once (sep : ascii) (s : string) : option (string * string) :=
  match s with
  | EmptyString => None
  | String c s' =>
      if Ascii.eqb c sep then Some (EmptyString, s')
      else match split_once sep s' with
           | Some (a, b) => Some (String c a, b)
           | None => None
           end
  end.

Definition dq : string := String (ascii_of_nat 34) EmptyString.
Definition nl : string := String (ascii_of_nat 10) EmptyString.

(** [str(z)] for an [int] *)
Definition str_of_Z (z : Z) : string := NilZero.string_of_int (Z.to_int z).


(** ** Regular expressions

    The patterns of [rn/filtering.py] are all compiled or searched with
    [re.IGNORECASE].  A pattern is kept as its source text, which
    [_matches_any] returns, together with its syntax tree. *)

Inductive regex : Type :=
| Eps
| Chr (p : ascii -> bool)        (* one character of a class *)
| Seq (r1 r2 : regex)
| Alt (r1 r2 : regex)            (* r1 is tried first *)
| Star (r : regex)               (* greedy *)
| Bol                            (* ^ *)
| Eol                            (* $ *)
| WordB                          (* \b *)
| Group (name : string) (r : regex).

(** A literal character under [re.IGNORECASE]. *)
Definition lit (c : ascii) : regex :=
  Chr (fun x => Ascii.eqb (lower_ascii x) (lower_ascii c)).

Fixpoint lits (l : list ascii) : regex :=
  match l with
  | [] => Eps
  | [c] => lit c
  | c :: l' => Seq (lit c) (lits l')
  end.

(** A literal word under [re.IGNORECASE]. *)
Definition word (s : string) : regex := lits (chars s).

Definition Plus (r : regex) : regex := Seq r (Star r).
Definition Opt (r : regex) : regex := Alt r Eps.

Fixpoint seqs (l : list regex) : regex :=
  match l with
  | [] => Eps
  | [r] => r
  | r :: l' => Seq r (seqs l')
  end.

Definition captures := list (string * string).

Definition word_at (c : option ascii) : bool :=
  match c with Some x => is_word x | None => false end.

(** Backtracking matcher in continuation-passing style.  [prev] is the
    character before the current position ([None] at the start of the text),
    [s] the rest of the text.  The first success in the order Python's engine
    tries the alternatives is returned. *)
Fixpoint rmatch (r : regex) (prev : option ascii) (s : list ascii)
    (caps : captures)
    (k : option ascii -> list ascii -> captures -> option captures)
    : option captures :=
  match r with
  | Eps => k prev s caps
  | Chr p =>
      match s with
      | c :: s' => if p c then k (Some c) s' caps else None
      | [] => None
      end
  | Seq r1 r2 =>
      rmatch r1 prev s caps (fun prev' s' caps' => rmatch r2 prev' s' caps' k)
  | Alt r1 r2 =>
      match rmatch r1 prev s caps k with
      | Some c => Some c
      | None => rmatch r2 prev s caps k
      end
  | Star r' =>
      (fix loop (n : nat) (prev : option ascii) (s : list ascii)
           (caps : captures) {struct n} : option captures :=
         match n with
         | O => k prev s caps
         | S n' =>
             match rmatch r' prev s caps
                     (fun prev' s' caps' =>
                        if (length s' <? length s)%nat
                        then loop n' prev' s' caps' else None) with
             | Some c => Some c
             | None => k prev s caps
             end
         end) (length s) prev s caps
  | Bol => match prev with None => k prev s caps | Some _ => None end
  | Eol =>
      match s with
      | [] => k prev s caps
      | [c] => if (code c =? 10)%N then k prev s caps else None
      | _ => None
      end
  | WordB =>
      if xorb (word_at prev) (word_at (head s)) then k prev s caps else None
  | Group name r' =>
      rmatch r' prev s caps (fun prev' s' caps' =>
        k prev' s' ((name, str (take (length s - length s') s)) :: caps'))
  end.

Record pattern := Pattern { source : string; tree : regex }.

(** [re.match(p, text)]: the match object's named groups, or [None]. *)
Definition re_match (p : pattern) (text : string) : option captures :=
  rmatch (tree p) None (chars text) [] (fun _ _ caps => Some caps).

Fixpoint search_from (r : regex) (prev : option ascii) (s : list ascii)
    : option captures :=
  match rmatch r prev s [] (fun _ _ caps => Some caps) with
  | Some c => Some c
  | None =>
      match s with
      | [] => None
      | c :: s' => search_from r (Some c) s'
      end
  end.

(** [re.search(p, text)] *)
Definition re_search (p : pattern) (text : string) : option captures :=
  search_from (tree p) None (chars text).

(** The truth value of a match object. *)
Definition found (m : option captures) : bool :=
  match m with Some _ => true | None => false end.

(** [m.group(name)] *)
Fixpoint group (name : string) (caps : captures) : option string :=
  match caps with
  | [] => None
  | (n, v) :: caps' => if String.eqb n name then Some v else group name caps'
  end.

Definition space : regex := Chr is_space.
Definition digit : regex := Chr is_digit.
Definition any_but (c : ascii) : regex := Chr (fun x => negb (Ascii.eqb x c)).
(** [.] does not match a newline. *)
Definition dot : regex := Chr (fun x => negb (code x =? 10)%N).

(** ** Truthiness and dynamic typing *)

(** [bool(v)] *)
Definition truthy (v : pyval) : bool :=
  match v with
  | VNone => false
  | VBool b => b
  | VInt z => negb (z =? 0)%Z
  | VFloat q => negb (Qeq_bool q 0)
  | VStr s => negb (String.eqb s "")
  | VList l => match l with [] => false | _ => true end
  | VDict d => match d with [] => false | _ => true end
  end.

(** [a or b] *)
Definition py_or (a b : pyval) : pyval := if truthy a then a else b.

(** The receiver of a [str] method: any other value has no such attribute. *)
Definition as_str (v : pyval) : result string :=
  match v with
  | VStr s => Ok s
  | _ => Raise AttributeError
  end.

(** [for x in v]: a list yields its elements, a [str] its characters, a dict
    its keys; the other values are not iterable. *)
Definition py_iter (v : pyval) : result (list pyval) :=
  match v with
  | VList l => Ok l
  | VStr s => Ok (map (fun c => VStr (String c EmptyString)) (chars s))
  | VDict d => Ok (map (fun kv => VStr (fst kv)) d)
  | _ => Raise TypeError
  end.

(** [v == s] for a string literal [s] *)
Definition eq_str (v : pyval) (s : string) : bool :=
  match v with
  | VStr t => String.eqb t s
  | _ => false
  end.

Definition opt_str (o : option string) : pyval :=
  match o with Some s => VStr s | None => VNone end.

(** ** The store of dict objects *)

Abbreviation item := dict (only parsing).
Abbreviation loc := nat (only parsing).
Abbreviation heap := (list dict) (only parsing).

(** A new dict object: its location and the extended store. *)
Definition alloc (d : dict) (h : heap) : loc * heap := (length h, h ++ [d]).

(** The dict at a location; every location handed out by [alloc] is in
    range. *)
Definition deref (h : heap) (l : loc) : dict := default [] (h !! l).

(** ** rn/filtering.py *)

Module Filter.

Record FilterDecision := mkFilterDecision {
  include : bool;
  reason : string;
  stage : string;
  confidence : Q
}.

(** [^Merge pull request\s+#\d+\s+] *)
Definition MERGE_RE : pattern :=
  Pattern "^Merge pull request\s+#\d+\s+"
    (seqs [Bol; word "Merge pull request"; Plus space; lit "#";
           Plus digit; Plus space]).

(** [^(?P<type>[a-zA-Z]+)(\([^)]+\))?:\s+] *)
Definition CONVENTIONAL_RE : pattern :=
  Pattern "^(?P<type>[a-zA-Z]+)(\([^)]+\))?:\s+"
    (seqs [Bol; Group "type" (Plus (Chr is_alpha));
           Opt (seqs [lit "("; Plus (any_but ")"); lit ")"]);
           lit ":"; Plus space]).

Definition DEFAULT_EXCLUDE_SUBJECT_PATTERNS : list pattern :=
  [ Pattern "\bbump\b" (seqs [WordB; word "bump"; WordB]);
    Pattern "\bversion\b" (seqs [WordB; word "version"; WordB]);
    Pattern "\brelease\b" (seqs [WordB; word "release"; WordB]);
    Pattern "^chore\b" (seqs [Bol; word "chore"; WordB]);
    Pattern "^refactor\b" (seqs [Bol; word "refactor"; WordB]);
    Pattern "^ci\b" (seqs [Bol; word "ci"; WordB]);
    Pattern "^test\b" (seqs [Bol; word "test"; WordB]);
    Pattern "^build\b" (seqs [Bol; word "build"; WordB]) ].

Definition DEFAULT_EXCLUDE_BODY_PATTERNS : list pattern :=
  [ Pattern "\bbump\b" (seqs [WordB; word "bump"; WordB]);
    Pattern "\bversion\b" (seqs [WordB; word "version"; WordB]) ].

Definition SOFT_INTERNAL_FILE_PATTERNS : list pattern :=
  [ Pattern "^\.github/" (seqs [Bol; word ".github/"]);
    Pattern "^docs?/" (seqs [Bol; word "doc"; Opt (lit "s"); lit "/"]);
    Pattern "^test/" (seqs [Bol; word "test/"]);
    Pattern ".*_test\.go$" (seqs [Star dot; word "_test.go"; Eol]) ].

Definition INCLUDE_TYPES : list (string * string) :=
  [("feat", "feature"); ("fix", "bugfix")].

Fixpoint assoc (k : string) (l : list (string * string)) : option string :=
  match l with
  | [] => None
  | (k', v) :: l' => if String.eqb k k' then Some v else assoc k l'
  end.

(** The first pattern of the list, in list order, found in [text]. *)
Fixpoint _matches_any (patterns : list pattern) (text : string)
    : option string :=
  match patterns with
  | [] => None
  | p :: ps =>
      match re_search p text with
      | Some _ => Some (source p)
      | None => _matches_any ps text
      end
  end.

(** The inner loop over [SOFT_INTERNAL_FILE_PATTERNS], with its [break]. *)
Definition is_internal_file (f : string) : bool :=
  existsb (fun p => found (re_search p f)) SOFT_INTERNAL_FILE_PATTERNS.

Fixpoint count_internal (files : list pyval) (internal : nat) : result nat :=
  match files with
  | [] => Ok internal
  | VStr f :: fs =>
      count_internal fs (if is_internal_file f then S internal else internal)
  | _ :: _ => Raise TypeError    (* re.search on a value that is no str *)
  end.

Definition _soft_internal_files_score (files : pyval) : result Q :=
  if negb (truthy files) then Ok 0%Q
  else
    fs ← py_iter files;
    internal ← count_internal fs 0;
    Ok (Z.of_nat internal # Pos.of_nat (Nat.max 1 (length fs))).

Definition detect_type (subject : string) : option string :=
  match re_match CONVENTIONAL_RE (strip subject) with
  | None => None
  | Some m =>
      match group "type" m with
      | Some t => Some (lower t)
      | None => None
      end
  end.

Definition rule_based_filter (item : dict)
    : result (option FilterDecision * dict) :=
  s ← as_str (py_or (Dict.get "subject" item) (VStr ""));
  let subject := strip s in
  b ← as_str (py_or (Dict.get "body" item) (VStr ""));
  let body := strip b in
  let files := py_or (Dict.get "files" item) (VList []) in
  let annotations : dict := [] in
  (* 1) Hard exclude: merge commits *)
  if found (re_match MERGE_RE subject) then
    Ok (Some (mkFilterDecision false
                "Excluded merge commit (not user-facing entry)." "rules"
                0.95%Q),
        annotations)
  else
  (* 2) Conventional type signals *)
  let ctype := detect_type subject in
  let annotations :=
    Dict.set "conventional_type" (opt_str ctype) annotations in
  (* 4) Strong include: feat/fix, and 5) soft signals *)
  let steps_4_5 : result (option FilterDecision * dict) :=
    match ctype ≫= (fun c => assoc c INCLUDE_TYPES) with
    | Some cat =>
        let annotations :=
          Dict.set "suggested_category" (VStr cat) annotations in
        Ok (Some (mkFilterDecision true
                    ("Included as " +:+ cat +:+ " (conventional commit).")
                    "rules" 0.9%Q),
            annotations)
    | None =>
        internal_score ← _soft_internal_files_score files;
        let annotations :=
          Dict.set "internal_files_score" (VFloat internal_score)
                   annotations in
        Ok (None, annotations)
    end in
  (* 3) Hard exclude patterns (subject/body) *)
  match _matches_any DEFAULT_EXCLUDE_SUBJECT_PATTERNS subject with
  | Some p =>
      Ok (Some (mkFilterDecision false
                  ("Excluded by subject pattern: " +:+ p) "rules" 0.9%Q),
          annotations)
  | None =>
      match _matches_any DEFAULT_EXCLUDE_BODY_PATTERNS body with
      | Some p2 =>
          if negb (contains "feat" (default "" ctype))
             && negb (contains "fix" (default "" ctype))
          then
            Ok (Some (mkFilterDecision false
                        ("Excluded by body pattern: " +:+ p2) "rules"
                        0.85%Q),
                annotations)
          else steps_4_5
      | None => steps_4_5
      end
  end.

(** The body of the loop of [filter_candidates]: the decision and the new
    dict [it2].  [it2 = dict(it)] is private until it is appended to one of
    the two lists, so the object is allocated with its final contents. *)
Definition candidate (it : item) : result (option FilterDecision * dict) :=
  '(decision, annotations) ← rule_based_filter it;
  let it2 := it in
  let it2 := Dict.update [("filter_annotations", VDict annotations)] it2 in
  match decision with
  | None =>
      Ok (None,
          Dict.update [("include", VNone); ("filter_reason", VNone);
                       ("filter_stage", VStr "rules")] it2)
  | Some decision =>
      Ok (Some decision,
          Dict.update
            [("include", VBool (include decision));
             ("filter_reason", VStr (reason decision));
             ("filter_stage", VStr (stage decision));
             ("filter_confidence", VFloat (confidence decision));
             ("category",
               py_or (Dict.get "category" it2)
                     (Dict.get "suggested_category" annotations));
             ("title", Dict.get "title" it2);
             ("description", Dict.get "description" it2)] it2)
  end.

Fixpoint filter_loop (items : list item) (decided ambiguous : list loc)
    (h : heap) : result (list loc * list loc * heap) :=
  match items with
  | [] => Ok (decided, ambiguous, h)
  | it :: rest =>
      '(decision, it2) ← candidate it;
      let '(l, h) := alloc it2 h in
      match decision with
      | None => filter_loop rest decided (ambiguous ++ [l]) h
      | Some _ => filter_loop rest (decided ++ [l]) ambiguous h
      end
  end.

Definition filter_candidates (items : list item) (h : heap)
    : result (list loc * list loc * heap) :=
  filter_loop items [] [] h.

End Filter.

(** ** rn/schema.py *)

Module Schema.

Inductive Category := feature | bugfix.

Record LLMDecision := mkLLMDecision {
  include : bool;
  category : option Category;
  title : option string;
  description : option string;
  needs_clarification : bool;
  clarification_question : option string;
  reason : string
}.

Definition category_name (c : Category) : string :=
  match c with feature => "feature" | bugfix => "bugfix" end.

(** Field validators of Pydantic (version 2, default lax mode), as its
    conversion table gives them for values decoded from JSON. *)

(** [bool]: a bool; the ints 0 and 1; the floats 0.0 and 1.0; the strings
    0, off, f, false, n, no and 1, on, t, true, y, yes in any case. *)
Definition validate_bool (v : pyval) : result bool :=
  match v with
  | VBool b => Ok b
  | VInt 0 => Ok false
  | VInt 1 => Ok true
  | VFloat q =>
      if Qeq_bool q 0 then Ok false
      else if Qeq_bool q 1 then Ok true
      else Raise ValidationError
  | VStr s =>
      if existsb (String.eqb (lower s)) ["0"; "off"; "f"; "false"; "n"; "no"]
      then Ok false
      else if existsb (String.eqb (lower s))
                      ["1"; "on"; "t"; "true"; "y"; "yes"]
      then Ok true
      else Raise ValidationError
  | _ => Raise ValidationError
  end.

(** [str]: a str only; numbers are not coerced. *)
Definition validate_str (v : pyval) : result string :=
  match v with
  | VStr s => Ok s
  | _ => Raise ValidationError
  end.

(** [Literal["feature", "bugfix"]] *)
Definition validate_category (v : pyval) : result Category :=
  match v with
  | VStr s =>
      if String.eqb s "feature" then Ok feature
      else if String.eqb s "bugfix" then Ok bugfix
      else Raise ValidationError
  | _ => Raise ValidationError
  end.

(** [Optional[T] = Field(None)]: an absent key takes the default [None], the
    value [None] is accepted, any other value is validated as a [T]. *)
Definition optional {A} (validate : pyval -> result A) (v : option pyval)
    : result (option A) :=
  match v with
  | None => Ok None
  | Some VNone => Ok None
  | Some v => a ← validate v; Ok (Some a)
  end.

(** [T = Field(...)]: the key is required. *)
Definition required {A} (validate : pyval -> result A) (v : option pyval)
    : result A :=
  match v with
  | None => Raise ValidationError
  | Some v => validate v
  end.

(** [T = Field(dflt)] *)
Definition with_default {A} (validate : pyval -> result A) (dflt : A)
    (v : option pyval) : result A :=
  match v with
  | None => Ok dflt
  | Some v => validate v
  end.

(** [LLMDecision.model_validate(raw)].  Keys the model does not declare are
    ignored; no field carries a length constraint or a validator. *)
Definition model_validate (raw : pyval) : result LLMDecision :=
  match raw with
  | VDict d =>
      include ← required validate_bool (Dict.lookup "include" d);
      category ← optional validate_category (Dict.lookup "category" d);
      title ← optional validate_str (Dict.lookup "title" d);
      description ← optional validate_str (Dict.lookup "description" d);
      needs_clarification ←
        with_default validate_bool false
                     (Dict.lookup "needs_clarification" d);
      clarification_question ←
        optional validate_str (Dict.lookup "clarification_question" d);
      reason ← required validate_str (Dict.lookup "reason" d);
      Ok (mkLLMDecision include category title description
                        needs_clarification clarification_question reason)
  | _ => Raise ValidationError
  end.

End Schema.

(** ** rn/filtering_llm.py *)

Module Gateway.
Import Schema.

Section Oracle.

(** [chat_json]: the remote classification oracle.  The answer to the
    [i]-th call of a run is given as a function of the call number and of
    the item the prompt is built from; a transport failure or an answer
    that is no JSON is an exception. *)
Variable chat_json : nat -> item -> result pyval.

(** The body of the loop of [llm_decide_ambiguous]. *)
Definition decide_one (i : nat) (it : item) : result item :=
  raw ← chat_json i it;
  decision ← model_validate raw;
  let review_status :=
    if include decision then "included" else "excluded" in
  let review_status :=
    if needs_clarification decision then "needs_clarification"
    else review_status in
  let it2 := it in
  Ok (Dict.update
        [("include", VBool (include decision));
         ("filter_stage", VStr "llm");
         ("filter_reason", VStr (reason decision));
         ("category", opt_str (category_name <$> category decision));
         ("title", opt_str (title decision));
         ("description", opt_str (description decision));
         ("needs_clarification", VBool (needs_clarification decision));
         ("clarification_question",
           opt_str (clarification_question decision));
         ("review_status", VStr review_status)] it2).

Fixpoint llm_loop (ambiguous_items : list loc) (i : nat) (out : list loc)
    (h : heap) : result (list loc * heap) :=
  match ambiguous_items with
  | [] => Ok (out, h)
  | l :: rest =>
      it2 ← decide_one i (deref h l);
      let '(l2, h) := alloc it2 h in
      llm_loop rest (S i) (out ++ [l2]) h
  end.

Definition llm_decide_ambiguous (ambiguous_items : list loc) (h : heap)
    : result (list loc * heap) :=
  llm_loop ambiguous_items 0 [] h.

End Oracle.

End Gateway.

(** ** main.py: the normalizer and the orchestrator *)

(** [v is True], [v is False] *)
Definition is_True (v : pyval) : bool :=
  match v with VBool true => true | _ => false end.
Definition is_False (v : pyval) : bool :=
  match v with VBool false => true | _ => false end.

(** The body of the loop of [normalize_review_status], on one dict. *)
Definition normalize_item (it : dict) : dict :=
  if Dict.mem "review_status" it && truthy (Dict.get "review_status" it)
  then it
  else
    let include := Dict.get "include" it in
    let needs_clarification := truthy (Dict.get "needs_clarification" it) in
    if needs_clarification
    then Dict.set "review_status" (VStr "needs_clarification") it
    else if is_True include
    then Dict.set "review_status" (VStr "included") it
    else if is_False include
    then Dict.set "review_status" (VStr "excluded") it
    else Dict.set "review_status" (VStr "needs_clarification") it.

(** [normalize_review_status(items)]: the dicts are updated in place, in the
    order of the list. *)
Definition normalize_review_status (items : list loc) (h : heap) : heap :=
  fold_left (fun h l => alter normalize_item l h) items h.

Section Pipeline.

Variable chat_json : nat -> item -> result pyval.
(** [harvest_changes(...)]: the records of the range, or a [GitError]. *)
Variable harvest_changes : result (list item).

(** [run_pipeline]: the three lists hold locations of the returned store. *)
Definition run_pipeline : result (list loc * list loc * list loc * heap) :=
  items ← harvest_changes;
  '(decided, ambiguous, h) ← Filter.filter_candidates items [];
  '(llm_results, h) ←
    (match ambiguous with
     | [] => Ok ([], h)
     | _ => Gateway.llm_decide_ambiguous chat_json ambiguous h
     end);
  let all_items : list loc := [] in
  let all_items := all_items ++ decided in
  let all_items := all_items ++ llm_results in
  let h := normalize_review_status all_items h in
  Ok (decided, ambiguous, all_items, h).

End Pipeline.

(** ** rn/review.py *)

(** The entry that the loop of [build_review_manifest] appends for one item. *)
Definition review_entry (it : item) : dict :=
  [("sha", Dict.get "sha" it);
   ("subject", Dict.get "subject" it);
   ("author", Dict.get "author_name" it);
   ("url", Dict.get "url" it);
   ("review_status", Dict.get "review_status" it);
   ("category", Dict.get "category" it);
   ("title", Dict.get "title" it);
   ("description", Dict.get "description" it);
   ("filter_stage", Dict.get "filter_stage" it);
   ("filter_reason", Dict.get "filter_reason" it);
   ("needs_clarification",
     Dict.get_default "needs_clarification" (VBool false) it);
   ("clarification_question", Dict.get "clarification_question" it)].

(** [build_review_manifest]; [generated_at] is the clock reading
    [datetime.now(timezone.utc).isoformat()]. *)
Definition build_review_manifest (generated_at : string)
    (repo_url from_ref to_ref : string) (items : list item) : dict :=
  [("metadata",
     VDict [("repo", VStr repo_url);
            ("from_ref", VStr from_ref);
            ("to_ref", VStr to_ref);
            ("generated_at", VStr generated_at)]);
   ("entries", VList (map (fun it => VDict (review_entry it)) items))].

(** The entries of a manifest, as the dicts they are. *)
Definition manifest_entries (manifest : dict) : list dict :=
  match Dict.get "entries" manifest with
  | VList l =>
      omap (fun v => match v with VDict d => Some d | _ => None end) l
  | _ => []
  end.

Section Main.

Variable chat_json : nat -> item -> result pyval.
Variable harvest_changes : result (list item).
Variable generated_at : string.

(** [main] up to the call of [write_review_manifest]: the exit status 1 of
    the [except] branch, or the manifest that is handed to the writer. *)
Definition main : Z + dict :=
  match run_pipeline chat_json harvest_changes with
  | Raise e => inl 1%Z
  | Ok (decided, ambiguous, all_items, h) =>
      inr (build_review_manifest generated_at
             "https://github.com/getlago/lago" "v1.24.0" "v1.25.0"
             (map (deref h) all_items))
  end.

End Main.

(** ** rn/render.py *)

Module Render.

(** [sep.join(l)] *)
Fixpoint join (sep : string) (l : list string) : string :=
  match l with
  | [] => ""
  | [x] => x
  | x :: l' => x +:+ sep +:+ join sep l'
  end.

Definition hex_digit (n : N) : ascii :=
  if (n <? 10)%N then ascii_of_N (48 + n) else ascii_of_N (87 + n).

(** One character inside the quotes of [repr(s)], [q] being the quote.  A
    byte above 127 is kept as it is, as Python keeps a printable character of
    another script; the few characters above 127 that Python escapes (U+00A0
    among them) are not told apart. *)
Definition repr_char (q c : ascii) : string :=
  let one (x : ascii) := String x EmptyString in
  let bs := ascii_of_nat 92 in
  if Ascii.eqb c bs then String bs (one bs)
  else if Ascii.eqb c q then String bs (one q)
  else if (code c =? 10)%N then String bs "n"
  else if (code c =? 13)%N then String bs "r"
  else if (code c =? 9)%N then String bs "t"
  else if (code c <? 32)%N || (code c =? 127)%N
  then String bs (String "x" (String (hex_digit (code c / 16))
                                     (one (hex_digit (code c mod 16)))))
  else one c.

(** [repr(s)] of a [str]: double quotes only when the text has a single quote
    and no double quote. *)
Definition repr_str (s : string) : string :=
  let sq := ascii_of_nat 39 in
  let q := if contains (String sq "") s && negb (contains dq s)
           then ascii_of_nat 34 else sq in
  String q (String.concat "" (map (repr_char q) (chars s)))
    +:+ String q "".

Section Format.

(** [repr] of a [float], on the rational that stands for it: the shortest
    decimal that reads back as the same binary64.  It belongs to the Python
    runtime and is taken as given. *)
Variable float_repr : Q -> string.

Fixpoint py_repr (v : pyval) : string :=
  match v with
  | VNone => "None"
  | VBool true => "True"
  | VBool false => "False"
  | VInt z => str_of_Z z
  | VFloat q => float_repr q
  | VStr s => repr_str s
  | VList l => "[" +:+ join ", " (map py_repr l) +:+ "]"
  | VDict d =>
      "{" +:+ join ", " (map (fun kv =>
                match kv with
                | (k, x) => repr_str k +:+ ": " +:+ py_repr x
                end) d) +:+ "}"
  end.

(** [str(v)], the conversion of an f-string field. *)
Definition py_str (v : pyval) : string :=
  match v with
  | VStr s => s
  | _ => py_repr v
  end.

(** The receiver of [.get]: only a dict has it. *)
Definition as_dict (v : pyval) : result dict :=
  match v with
  | VDict d => Ok d
  | _ => Raise AttributeError
  end.

Fixpoint all_dicts (l : list pyval) : result (list dict) :=
  match l with
  | [] => Ok []
  | v :: l' => d ← as_dict v; ds ← all_dicts l'; Ok (d :: ds)
  end.

Definition clean_prefixes : list string :=
  ["feat"; "fix"; "chore"; "refactor"; "misc"; "ci"; "test"; "build"].

Fixpoint clean_loop (prefixes : list string) (s : string) : string :=
  match prefixes with
  | [] => s
  | prefix :: rest =>
      if startswith (prefix +:+ "(") (lower s)
         || startswith (prefix +:+ ":") (lower s)
      then match split_once ":" s with
           | Some (_, after) => strip after
           | None => clean_loop rest s
           end
      else clean_loop rest s
  end.

Definition _clean_title_from_subject (subject : string) : string :=
  let s := strip subject in
  clean_loop clean_prefixes s.

Definition _fallback_description (entry : dict) : string :=
  let subject := py_or (Dict.get "subject" entry) (VStr "") in
  "Includes change: " +:+ py_str subject.

Definition fmt_entry (e : dict) : result string :=
  t ← as_str (py_or (Dict.get "title" e) (VStr ""));
  let title := strip t in
  title ←
    (if String.eqb title ""
     then s ← as_str (py_or (Dict.get "subject" e) (VStr "Untitled change"));
          Ok (_clean_title_from_subject s)
     else Ok title);
  d ← as_str (py_or (Dict.get "description" e) (VStr ""));
  let desc := strip d in
  let desc := if String.eqb desc "" then _fallback_description e else desc in
  let author := py_or (Dict.get "author" e) (VStr "Unknown") in
  let url := Dict.get "url" e in
  let link :=
    if truthy url then " ([details](" +:+ py_str url +:+ "))" else "" in
  Ok ("- **" +:+ title +:+ "**" +:+ link +:+ nl +:+
      "  - " +:+ desc +:+ nl +:+
      "  - Author: " +:+ py_str author +:+ nl).

Fixpoint fmt_entries (es : list dict) : result (list string) :=
  match es with
  | [] => Ok []
  | e :: es' => x ← fmt_entry e; xs ← fmt_entries es'; Ok (x :: xs)
  end.

(** [[e for e in es if e.get(key) == value]] *)
Definition select (key value : string) (es : list dict) : list dict :=
  List.filter (fun e => eq_str (Dict.get key e) value) es.

Definition fmt_clarification (e : dict) : string :=
  let q := py_or (Dict.get "clarification_question" e)
                 (VStr "Clarification needed.") in
  "- " +:+ py_str (Dict.get "subject" e) +:+ nl +:+
  "  - Question: " +:+ py_str q +:+ nl +:+
  "  - Author: " +:+ py_str (Dict.get "author" e) +:+ nl.

(** The three groups of entries that the renderer prints: the Features
    section, the Bug Fixes section and the internal clarification section. *)
Definition features (entries : list dict) : list dict :=
  select "category" "feature" (select "review_status" "included" entries).
Definition bugfixes (entries : list dict) : list dict :=
  select "category" "bugfix" (select "review_status" "included" entries).
Definition needs_clar (entries : list dict) : list dict :=
  select "review_status" "needs_clarification" entries.

Definition render_release_notes_markdown (manifest : dict) : result string :=
  meta ← as_dict (Dict.get_default "metadata" (VDict []) manifest);
  es ← py_iter (Dict.get_default "entries" (VList []) manifest);
  let repo := Dict.get_default "repo" (VStr "") meta in
  let from_ref := Dict.get_default "from_ref" (VStr "") meta in
  let to_ref := Dict.get_default "to_ref" (VStr "") meta in
  let generated_at := Dict.get_default "generated_at" (VStr "") meta in
  entries ← all_dicts es;
  let lines := ["# Release Notes" +:+ nl] in
  let lines :=
    if truthy repo || truthy from_ref || truthy to_ref
    then lines ++ ["_Repository: " +:+ py_str repo +:+ "_" +:+ nl;
                   "_Changes: " +:+ py_str from_ref +:+ " → "
                     +:+ py_str to_ref +:+ "_" +:+ nl]
    else lines in
  let lines :=
    if truthy generated_at
    then lines ++ ["_Generated at: " +:+ py_str generated_at +:+ "_" +:+ nl]
    else lines in
  let lines := lines ++ ["## Features" +:+ nl] in
  fs ← fmt_entries (features entries);
  let lines :=
    match fs with
    | [] => lines ++ ["_No user-facing features detected._" +:+ nl]
    | _ => lines ++ fs
    end in
  let lines := lines ++ ["## Bug Fixes" +:+ nl] in
  bs ← fmt_entries (bugfixes entries);
  let lines :=
    match bs with
    | [] => lines ++ ["_No user-facing bug fixes detected._" +:+ nl]
    | _ => lines ++ bs
    end in
  let lines :=
    match needs_clar entries with
    | [] => lines
    | cs => lines ++ [nl +:+ "---" +:+ nl;
                      "## Needs clarification (internal)" +:+ nl]
                  ++ map fmt_clarification cs
    end in
  Ok (join nl lines).

End Format.

End Render.


(** ** main.py: the target languages *)

(** [s.split(sep)] for a one-character separator: the pieces between the
    separators, one more than there are separators. *)
Fixpoint split_all (sep : ascii) (s : string) : list string :=
  match s with
  | EmptyString => [EmptyString]
  | String c s' =>
      if Ascii.eqb c sep then EmptyString :: split_all sep s'
      else match split_all sep s' with
           | x :: xs => String c x :: xs
           | [] => [String c EmptyString]
           end
  end.

Definition name_map : dict :=
  [("en", VNone);
   ("it", VStr "Italian");
   ("fr", VStr "French");
   ("de", VStr "German");
   ("es", VStr "Spanish")].

(** [parse_target_langs]; [TARGET_LANGS] is the environment variable, [None]
    when it is not set. *)
Definition parse_target_langs (TARGET_LANGS : option string) : dict :=
  let raw := strip (default "en,it" TARGET_LANGS) in
  let codes :=
    map (fun c => lower (strip c))
        (List.filter (fun c => negb (String.eqb (strip c) ""))
                     (split_all "," raw)) in
  let codes := match codes with [] => ["en"; "it"] | _ => codes end in
  let out :=
    fold_left
      (fun out c =>
         Dict.set c (if String.eqb c "en" then VNone
                     else Dict.get_default c (VStr c) name_map) out)
      codes [] in
  if Dict.mem "en" out then out else ("en", VNone) :: out.

(** ** rn/harvest.py: the name of the cache directory *)

(** [s.rstrip(c)] for one character. *)
Fixpoint drop_char (c : ascii) (l : list ascii) : list ascii :=
  match l with
  | [] => []
  | x :: l' => if Ascii.eqb x c then drop_char c l' else l
  end.

Definition rstrip_char (c : ascii) (s : string) : string :=
  str (rev (drop_char c (rev (chars s)))).

(** [s.replace(old, new)] for a text [old] that is not empty: the
    occurrences of [old] are replaced from the left and do not overlap.
    [skip] counts the characters of an occurrence that are still to be
    passed over. *)
Fixpoint replace_go (old new : string) (skip : nat) (s : string) : string :=
  match s with
  | EmptyString => EmptyString
  | String c s' =>
      match skip with
      | S n => replace_go old new n s'
      | O =>
          if String.prefix old s
          then new +:+ replace_go old new (String.length old - 1) s'
          else String c (replace_go old new 0 s')
      end
  end.

Definition replace (old new s : string) : string := replace_go old new 0 s.

(** The class [[a-zA-Z0-9._/-]] of the pattern in [_safe_repo_dirname]. *)
Definition url_char (c : ascii) : bool :=
  is_alpha c || is_digit c ||
  existsb (Ascii.eqb c) ["."; "_"; "/"; "-"]%char.

(** [re.sub] of a pattern that is one negated class under [+]: every
    maximal run of characters outside the class becomes [repl]. *)
Fixpoint sub_runs (keep : ascii -> bool) (repl : string) (in_run : bool)
    (s : string) : string :=
  match s with
  | EmptyString => EmptyString
  | String c s' =>
      if keep c then String c (sub_runs keep repl false s')
      else if in_run then sub_runs keep repl true s'
      else repl +:+ sub_runs keep repl true s'
  end.

Definition _safe_repo_dirname (repo_url : string) : string :=
  let repo_url := rstrip_char "/" (strip repo_url) in
  let repo_url := replace "http://" "" (replace "https://" "" repo_url) in
  let repo_url := replace ":" "/" (replace "git@" "" repo_url) in
  let repo_url := sub_runs url_char "_" false repo_url in
  replace "/" "_" repo_url.

(** A character of a safe directory name: a letter, a digit, a dot, an
    underscore or a hyphen. *)
Definition safe_char (c : ascii) : bool :=
  is_alpha c || is_digit c || existsb (Ascii.eqb c) ["."; "_"; "-"]%char.

(** The link to a commit of the repository. *)
(** A literal character of a pattern that is matched without
    [re.IGNORECASE]. *)
Definition exact (c : ascii) : regex := Chr (Ascii.eqb c).

Fixpoint exacts (l : list ascii) : regex :=
  match l with
  | [] => Eps
  | [c] => exact c
  | c :: l' => Seq (exact c) (exacts l')
  end.

(** [^https?://github\.com/([^/]+)/([^/]+)$]; the two groups are named by
    their numbers. *)
Definition GITHUB_RE : pattern :=
  Pattern "^https?://github\.com/([^/]+)/([^/]+)$"
    (seqs [Bol; exacts (chars "http"); Opt (exact "s");
           exacts (chars "://github.com/");
           Group "1" (Plus (any_but "/")); exact "/";
           Group "2" (Plus (any_but "/")); Eol]).

Definition _github_commit_url (repo_url sha : string) : option string :=
  let repo_url := rstrip_char "/" (strip repo_url) in
  match re_match GITHUB_RE repo_url with
  | None => None
  | Some m =>
      match group "1" m, group "2" m with
      | Some owner, Some repo =>
          Some ("https://github.com/" +:+ owner +:+ "/" +:+ repo +:+
                "/commit/" +:+ sha)
      | _, _ => None
      end
  end.

(** ** Vocabulary of the properties *)

Definition only_validation_errors {A} (m : result A) : Prop :=
  forall e, m = Raise e -> e = ValidationError.

(** The keys that the pipeline stages write into the dicts they derive from a
    change record.  Every other key, the fields of the harvested record among
    them, is copied unchanged. *)
Definition stage_keys : list string :=
  ["filter_annotations"; "include"; "filter_reason"; "filter_stage";
   "filter_confidence"; "category"; "title"; "description";
   "needs_clarification"; "clarification_question"; "review_status"].

Definition record_key (k : string) : bool :=
  negb (existsb (String.eqb k) stage_keys).

(** The fields that [LLMDecision] declares. *)
Definition schema_fields : list string :=
  ["include"; "category"; "title"; "description"; "needs_clarification";
   "clarification_question"; "reason"].

(** One of the three statuses of a review entry. *)
Definition valid_status (v : pyval) : Prop :=
  v = VStr "included" \/ v = VStr "excluded" \/
  v = VStr "needs_clarification".

(** The keys of a manifest entry that the renderer reads. *)
Definition render_keys : list string :=
  ["review_status"; "category"; "title"; "subject"; "description"; "author";
   "url"; "clarification_question"].

(** A text that does not begin with white space. *)
Definition starts_clean (l : list ascii) : Prop :=
  match l with [] => True | c :: _ => is_space c = false end.

(** The entry of one language of the result: the base page has no language
    name, a code of the map has its name, any other code stands for
    itself. *)
Definition lang_entry (kv : string * pyval) : Prop :=
  (fst kv = "en" /\ snd kv = VNone) \/
  (fst kv = "it" /\ snd kv = VStr "Italian") \/
  (fst kv = "fr" /\ snd kv = VStr "French") \/
  (fst kv = "de" /\ snd kv = VStr "German") \/
  (fst kv = "es" /\ snd kv = VStr "Spanish") \/
  (~ In (fst kv) ["en"; "it"; "fr"; "de"; "es"] /\ snd kv = VStr (fst kv)).

(** A text without a slash. *)
Definition slash_free (s : string) : Prop :=
  Forall (fun c => negb (Ascii.eqb c "/") = true) (chars s).

(** [s.isascii()].  On such texts the classes of the embedding are those of
    the code. *)
Definition isascii (s : string) : bool :=
  forallb (fun c => (code c <? 128)%N) (chars s).

(** The value under a key is an ASCII text, or no text at all. *)
Definition ascii_field (k : string) (it : dict) : bool :=
  match Dict.get k it with VStr s => isascii s | _ => true end.





(** The outcome of the rules stage on a record. *)
Definition decided_by_rules (it : item) : bool :=
  match Filter.rule_based_filter it with
  | Ok (Some _, _) => true
  | _ => false
  end.

Definition ambiguous_by_rules (it : item) : bool :=
  match Filter.rule_based_filter it with
  | Ok (None, _) => true
  | _ => false
  end.

(** [review_status] is set: the key is present and its value is true. *)
Definition has_status (it : dict) : bool :=
  Dict.mem "review_status" it && truthy (Dict.get "review_status" it).

(** A location of the derived dict of a record: [d] is what the stage made of
    the record [it]. *)
Definition derived_at (h : heap) (l : loc) (it : item) : Prop :=
  exists fd d, Filter.candidate it = Ok (fd, d) /\ h !! l = Some d.

(** The dict that the gateway made of the ambiguous dict at [l]. *)
Definition resolved_at (chat : nat -> item -> result pyval) (h0 h : heap)
    (l2 l : loc) : Prop :=
  exists i d2,
    Gateway.decide_one chat i (deref h0 l) = Ok d2 /\ h !! l2 = Some d2.

(** ** Concrete inputs *)

(** A change record as [harvest_changes] returns it. *)
Definition record (sha subject body : string) (files : list string) : item :=
  [("sha", VStr sha);
   ("author_name", VStr "Ada");
   ("author_email", VStr "ada@example.org");
   ("author_date", VStr "2024-05-01T10:00:00+00:00");
   ("subject", VStr subject);
   ("body", VStr body);
   ("files", VList (map VStr files));
   ("url", VNone)].

Definition merge_record : item :=
  record "a1" "Merge pull request #42 from x/y" "" [].
Definition feat_record : item :=
  record "b2" "feat(billing): add proration" "" ["app/billing.rb"].
Definition chore_record : item :=
  record "c3" "chore: bump dependency to 1.2.3" "" ["Gemfile.lock"].
Definition docs_record : item :=
  record "d4" "update internal docs for api" "" ["docs/api.md"].
Definition tune_record : item :=
  record "e5" "tune the retry limits" "" ["app/retry.rb"].


Definition sample_records : list item :=
  [merge_record; docs_record; feat_record; tune_record; chore_record].

(** An oracle answer that is well formed, included as a feature. *)
Definition good_response : pyval :=
  VDict [("include", VBool true);
         ("category", VStr "feature");
         ("title", VStr "Clearer API documentation");
         ("description", VStr "The API guide was rewritten.");
         ("needs_clarification", VBool false);
         ("clarification_question", VNone);
         ("reason", VStr "User-facing documentation change.")].




(** An answer that carries a category although it excludes the change. *)
Definition excluded_with_category : pyval :=
  VDict [("include", VBool false);
         ("category", VStr "feature");
         ("reason", VStr "Internal only.")].

(** An answer without the mandatory [reason]. *)
Definition no_reason_response : dict :=
  [("include", VBool true);
   ("category", VStr "bugfix");
   ("title", VStr "Retry limits");
   ("description", VStr "Retries are bounded.")].

Definition good_oracle : nat -> item -> result pyval :=
  fun _ _ => Ok good_response.

(** The second call is answered without a [reason]. *)
Definition faulty_oracle : nat -> item -> result pyval :=
  fun i _ => if (i =? 1)%nat then Ok (VDict no_reason_response)
             else Ok good_response.

Definition sample_run : result (list nat * list nat * list nat * list dict) :=
  run_pipeline good_oracle (Ok sample_records).

Definition sample_heap : list dict :=
  Eval vm_compute in
    match sample_run with
    | Ok (_, _, _, h) => h
    | Raise _ => []
    end.

(** A manifest entry, as the builder lays it out, with the given status and
    category. *)
Definition entry (subject : string) (review_status category : pyval) : dict :=
  [("sha", VStr "b2");
   ("subject", VStr subject);
   ("author", VStr "Ada");
   ("url", VNone);
   ("review_status", review_status);
   ("category", category);
   ("title", VNone);
   ("description", VNone);
   ("filter_stage", VStr "rules");
   ("filter_reason", VNone);
   ("needs_clarification", VBool false);
   ("clarification_question", VNone)].

(** An entry whose [review_status] key was lost in a hand edit. *)
Definition unreviewed_entry : dict :=
  [("sha", VStr "f6");
   ("subject", VStr "feat: export invoices");
   ("author", VStr "Ada");
   ("url", VNone);
   ("category", VStr "feature");
   ("title", VNone);
   ("description", VNone);
   ("needs_clarification", VBool false);
   ("clarification_question", VNone)].

(** An included entry without a category. *)
Definition uncategorized_entry : dict :=
  entry "tune the retry limits" (VStr "included") VNone.

Definition sample_metadata : pyval :=
  VDict [("repo", VStr "https://github.com/getlago/lago");
         ("from_ref", VStr "v1.24.0");
         ("to_ref", VStr "v1.25.0");
         ("generated_at", VStr "2024-05-02T00:00:00+00:00")].

Definition sample_manifest (entries : list dict) : dict :=
  [("metadata", sample_metadata); ("entries", VList (map VDict entries))].

(** A rendering of floats for the examples, whose manifests hold none. *)
Definition no_floats : Q -> string := fun _ => "nan".

(** An entry that none of the three filters of the renderer selects. *)
Definition unselected (e : dict) : Prop :=
  (eq_str (Dict.get "review_status" e) "included" = false \/
   (eq_str (Dict.get "category" e) "feature" = false /\
    eq_str (Dict.get "category" e) "bugfix" = false)) /\
  eq_str (Dict.get "review_status" e) "needs_clarification" = false.

(** The store after [filter_candidates] on the sample records. *)
Definition sample_candidates : list dict :=
  Eval vm_compute in
    match Filter.filter_candidates sample_records [] with
    | Ok (_, _, h) => h
    | Raise _ => []
    end.

(** * Properties *)

(** ** Strings *)

Lemma chars_str l : chars (str l) = l.
Proof. apply list_ascii_of_string_of_list_ascii. Qed.

Lemma str_chars s : str (chars s) = s.
Proof. apply string_of_list_ascii_of_string. Qed.

Lemma chars_app s t : chars (s +:+ t) = chars s ++ chars t.
Proof. induction s as [|c s IH]; simpl; [done|]. by rewrite IH. Qed.

Lemma str_app l1 l2 : str (l1 ++ l2) = str l1 +:+ str l2.
Proof. unfold str. induction l1 as [|c l1 IH]; simpl; [done|]. by rewrite IH. Qed.

Lemma str_nonempty l : l <> [] -> str l <> "".
Proof. by destruct l. Qed.

Lemma drop_spaces_clean l : starts_clean (drop_spaces l).
Proof.
  induction l as [|c l IH]; simpl; [done|].
  destruct (is_space c) eqn:E; [exact IH|exact E].
Qed.

Lemma drop_spaces_id l : starts_clean l -> drop_spaces l = l.
Proof. destruct l as [|c l]; simpl; [done|]. by intros ->. Qed.

Lemma drop_spaces_suffix l : exists pre, l = pre ++ drop_spaces l.
Proof.
  induction l as [|c l [pre IH]]; simpl; [by exists []|].
  destruct (is_space c); [|by exists []].
  exists (c :: pre). simpl. by rewrite <- IH.
Qed.

Lemma rev_starts_clean (l : list ascii) :
  starts_clean l -> starts_clean (rev (drop_spaces (rev l))).
Proof.
  intros Hl. destruct (drop_spaces_suffix (rev l)) as [p Hp].
  destruct (drop_spaces (rev l)) as [|c t] eqn:E; [done|].
  assert (l = rev (c :: t) ++ rev p) as Hl'.
  { rewrite <- rev_app_distr, <- Hp. by rewrite rev_involutive. }
  destruct (rev (c :: t)) as [|x r] eqn:Er.
  - apply (f_equal (@length ascii)) in Er. rewrite length_rev in Er.
    discriminate Er.
  - subst l. exact Hl.
Qed.

(** [strip] leaves nothing to strip. *)
Lemma strip_idem s : strip (strip s) = strip s.
Proof.
  unfold strip. rewrite chars_str.
  rewrite (drop_spaces_id (rev (drop_spaces (rev (drop_spaces (chars s)))))).
  2:{ by apply rev_starts_clean, drop_spaces_clean. }
  rewrite rev_involutive.
  by rewrite (drop_spaces_id _ (drop_spaces_clean _)).
Qed.

(** ** The matcher: runs of a class, and the conventional-commit prefix *)

Lemma rmatch_seq r1 r2 prev s caps k :
  rmatch (Seq r1 r2) prev s caps k
  = rmatch r1 prev s caps (fun prev' s' caps' => rmatch r2 prev' s' caps' k).
Proof. reflexivity. Qed.

Lemma rmatch_chr_cons p prev c s caps k :
  rmatch (Chr p) prev (c :: s) caps k
  = if p c then k (Some c) s caps else None.
Proof. reflexivity. Qed.

Lemma rmatch_chr_nil p prev caps k : rmatch (Chr p) prev [] caps k = None.
Proof. reflexivity. Qed.



Lemma star_chr_nil p prev caps k :
  rmatch (Star (Chr p)) prev [] caps k = k prev [] caps.
Proof. reflexivity. Qed.

Lemma star_chr_cons p prev c s caps k :
  rmatch (Star (Chr p)) prev (c :: s) caps k
  = if p c
    then match rmatch (Star (Chr p)) (Some c) s caps k with
         | Some r => Some r
         | None => k prev (c :: s) caps
         end
    else k prev (c :: s) caps.
Proof.
  cbn [rmatch length]. destruct (p c); [|reflexivity].
  assert ((length s <? S (length s))%nat = true) as ->
    by (apply Nat.ltb_lt; lia).
  reflexivity.
Qed.


Lemma star_chr_sound p : forall s prev caps k r,
  rmatch (Star (Chr p)) prev s caps k = Some r ->
  exists l rest prev',
    s = l ++ rest /\ Forall (fun c => p c = true) l /\
    k prev' rest caps = Some r.
Proof.
  induction s as [|c s IH]; intros prev caps k r.
  - rewrite star_chr_nil. intros H. by exists [], [], prev.
  - rewrite star_chr_cons. destruct (p c) eqn:Hc.
    + destruct (rmatch (Star (Chr p)) (Some c) s caps k) as [r'|] eqn:Hin.
      * intros [= <-]. destruct (IH _ _ _ _ Hin) as (l & rest & prev' & -> & Hl & Hk).
        exists (c :: l), rest, prev'. split_and!; [done| |done].
        by constructor.
      * intros H. by exists [], (c :: s), prev.
    + intros H. by exists [], (c :: s), prev.
Qed.

(** The greedy choice: after a longest run of the class, the first
    continuation that is tried is the one at the end of the run. *)
Lemma star_chr_greedy p l : forall prev rest caps k r,
  Forall (fun c => p c = true) l ->
  match rest with [] => True | c :: _ => p c = false end ->
  (forall prev', k prev' rest caps = Some r) ->
  rmatch (Star (Chr p)) prev (l ++ rest) caps k = Some r.
Proof.
  induction l as [|c l IH]; intros prev rest caps k r Hl Hrest Hk.
  - destruct rest as [|c rest]; [by rewrite star_chr_nil|].
    simpl app. by rewrite star_chr_cons, Hrest.
  - apply Forall_cons in Hl as [Hc Hl]. simpl app.
    by rewrite star_chr_cons, Hc, (IH (Some c) rest caps k r).
Qed.

Lemma take_matched (l rest : list ascii) :
  take (length (l ++ rest) - length rest) (l ++ rest) = l.
Proof.
  rewrite length_app, Nat.add_sub. apply take_app_length.
Qed.

Lemma group_plus_sound name p s prev caps k r :
  rmatch (Group name (Plus (Chr p))) prev s caps k = Some r ->
  exists l rest prev',
    l <> [] /\ s = l ++ rest /\ Forall (fun c => p c = true) l /\
    k prev' rest ((name, str l) :: caps) = Some r.
Proof.
  unfold Plus. cbn [rmatch]. destruct s as [|c s]; [done|].
  destruct (p c) eqn:Hc; [|done]. intros H.
  apply star_chr_sound in H as (l & rest & prev' & -> & Hl & Hk).
  exists (c :: l), rest, prev'. split_and!; [done|done|by constructor|].
  change (c :: l ++ rest) with ((c :: l) ++ rest) in Hk.
  by rewrite take_matched in Hk.
Qed.

Lemma group_plus_greedy name p l rest prev caps k r :
  l <> [] -> Forall (fun c => p c = true) l ->
  match rest with [] => True | c :: _ => p c = false end ->
  (forall prev', k prev' rest ((name, str l) :: caps) = Some r) ->
  rmatch (Group name (Plus (Chr p))) prev (l ++ rest) caps k = Some r.
Proof.
  intros Hne Hl Hrest Hk. destruct l as [|c l]; [done|].
  apply Forall_cons in Hl as [Hc Hl].
  unfold Plus. cbn [rmatch app]. rewrite Hc.
  apply star_chr_greedy; [done..|].
  intros prev'. change (c :: l ++ rest) with ((c :: l) ++ rest).
  by rewrite take_matched.
Qed.











(** ** Dictionaries *)

Lemma lookup_set_eq k v d : Dict.lookup k (Dict.set k v d) = Some v.
Proof.
  induction d as [|[k' v'] d IH]; simpl.
  - by rewrite String.eqb_refl.
  - destruct (String.eqb k k') eqn:E; simpl; rewrite E; [done | exact IH].
Qed.

Lemma lookup_set_ne k k' v d :
  String.eqb k' k = false ->
  Dict.lookup k' (Dict.set k v d) = Dict.lookup k' d.
Proof.
  intros Hne. induction d as [|[k0 v0] d IH]; simpl.
  - by rewrite Hne.
  - destruct (String.eqb k k0) eqn:E; simpl.
    + apply String.eqb_eq in E. subst k0. by rewrite Hne.
    + by rewrite IH.
Qed.

Lemma get_set_eq k v d : Dict.get k (Dict.set k v d) = v.
Proof. unfold Dict.get. by rewrite lookup_set_eq. Qed.

Lemma get_set_ne k k' v d :
  String.eqb k' k = false -> Dict.get k' (Dict.set k v d) = Dict.get k' d.
Proof. intros. unfold Dict.get. by rewrite lookup_set_ne. Qed.

Lemma mem_set_eq k v d : Dict.mem k (Dict.set k v d) = true.
Proof. unfold Dict.mem. by rewrite lookup_set_eq. Qed.

(** ** The schema of an oracle decision *)

Import Schema.

Ltac bind_simpl := unfold mbind, result_bind, mret, result_ret; simpl.

Lemma validate_bool_raises v : only_validation_errors (validate_bool v).
Proof.
  intros e. destruct v as [|b|z|q|s|l|d]; simpl; try congruence.
  - destruct z as [|[p|p|]|p]; congruence.
  - repeat case_match; congruence.
  - repeat case_match; congruence.
Qed.

Lemma validate_str_raises v : only_validation_errors (validate_str v).
Proof. intros e. destruct v; simpl; congruence. Qed.

Lemma validate_category_raises v :
  only_validation_errors (validate_category v).
Proof. intros e. destruct v; simpl; repeat case_match; congruence. Qed.

Lemma required_raises {A} (f : pyval -> result A) o :
  (forall v, only_validation_errors (f v)) ->
  only_validation_errors (required f o).
Proof. intros Hf e. destruct o; simpl; [apply Hf | congruence]. Qed.

Lemma with_default_raises {A} (f : pyval -> result A) dflt o :
  (forall v, only_validation_errors (f v)) ->
  only_validation_errors (with_default f dflt o).
Proof. intros Hf e. destruct o; simpl; [apply Hf | congruence]. Qed.

Lemma optional_raises {A} (f : pyval -> result A) o :
  (forall v, only_validation_errors (f v)) ->
  only_validation_errors (optional f o).
Proof.
  intros Hf e. destruct o as [v|]; simpl; [|congruence].
  destruct v; bind_simpl; try congruence;
    match goal with
    | |- context [f ?x] =>
        pose proof (Hf x) as Hx; destruct (f x); [congruence|];
        intros [= <-]; by apply Hx
    end.
Qed.

Create HintDb schema.
#[local] Hint Resolve validate_bool_raises validate_str_raises
  validate_category_raises : schema.

(** Destructs the next field validator of [model_validate]; a failing one
    closes the goal with the exception it raises. *)
Ltac next_field :=
  unfold mbind, result_bind, mret, result_ret;
  match goal with
  | |- context [match ?m with Ok _ => _ | Raise _ => _ end] =>
      let H := fresh "Hfield" in
      destruct m eqn:H; lazy beta iota
  end.

(** Destructs the computation at the head of a chain of binds whose result
    is known to be [Ok]. *)
Ltac head_bind :=
  unfold mbind, result_bind, mret, result_ret;
  lazymatch goal with
  | |- match ?m with Ok _ => _ | Raise _ => _ end = _ -> _ =>
      let H := fresh "Hhead" in
      destruct m eqn:H; lazy beta iota; [|congruence]
  end.

(** The failing field validator raised a [ValidationError]. *)
Ltac field_raises :=
  intros [= <-];
  match goal with
  | H : _ = Raise ?e |- ?e = ValidationError =>
      first [ eapply required_raises; [|exact H]
            | eapply optional_raises; [|exact H]
            | eapply with_default_raises; [|exact H] ];
      auto with schema
  end.

(** Whatever fails in [model_validate] is a [ValidationError]. *)
Lemma model_validate_raises raw : only_validation_errors (model_validate raw).
Proof.
  intros e. destruct raw as [| | | | | |d]; try (simpl; congruence).
  unfold model_validate.
  repeat (next_field; [|field_raises]).
  congruence.
Qed.

(** A response without the mandatory [reason] does not validate. *)
Lemma model_validate_needs_reason d :
  Dict.lookup "reason" d = None ->
  model_validate (VDict d) = Raise ValidationError.
Proof.
  intros Hr.
  destruct (model_validate (VDict d)) as [dec|e] eqn:Hv.
  - exfalso. revert Hv. unfold model_validate. rewrite Hr.
    repeat (next_field; [|congruence]).
    match goal with H : required _ None = Ok _ |- _ => discriminate H end.
  - f_equal. by eapply model_validate_raises.
Qed.

(** Inversion of a successful validation, field by field. *)
Lemma model_validate_ok d dec :
  model_validate (VDict d) = Ok dec ->
  required validate_bool (Dict.lookup "include" d) = Ok (include dec) /\
  optional validate_category (Dict.lookup "category" d) = Ok (category dec) /\
  optional validate_str (Dict.lookup "title" d) = Ok (title dec) /\
  optional validate_str (Dict.lookup "description" d) = Ok (description dec) /\
  with_default validate_bool false (Dict.lookup "needs_clarification" d)
    = Ok (needs_clarification dec) /\
  optional validate_str (Dict.lookup "clarification_question" d)
    = Ok (clarification_question dec) /\
  required validate_str (Dict.lookup "reason" d) = Ok (reason dec).
Proof.
  unfold model_validate.
  repeat (next_field; [|congruence]).
  intros [= <-]. simpl. done.
Qed.

Lemma model_validate_intro d i c t ds n q r :
  required validate_bool (Dict.lookup "include" d) = Ok i ->
  optional validate_category (Dict.lookup "category" d) = Ok c ->
  optional validate_str (Dict.lookup "title" d) = Ok t ->
  optional validate_str (Dict.lookup "description" d) = Ok ds ->
  with_default validate_bool false (Dict.lookup "needs_clarification" d)
    = Ok n ->
  optional validate_str (Dict.lookup "clarification_question" d) = Ok q ->
  required validate_str (Dict.lookup "reason" d) = Ok r ->
  model_validate (VDict d) = Ok (mkLLMDecision i c t ds n q r).
Proof.
  intros H1 H2 H3 H4 H5 H6 H7. unfold model_validate.
  rewrite H1, H2, H3, H4, H5, H6, H7. reflexivity.
Qed.

(** ** Keys written by the stages *)

Ltac split_keys H :=
  unfold record_key in H; apply negb_true_iff in H;
  cbn [existsb stage_keys] in H;
  repeat (apply orb_false_elim in H as [? H]).

Ltac keep_key :=
  unfold Dict.update; cbn [fold_left fst snd];
  repeat (rewrite get_set_ne by assumption); try reflexivity.

Lemma candidate_keeps it fd d k :
  Filter.candidate it = Ok (fd, d) ->
  record_key k = true ->
  Dict.get k d = Dict.get k it.
Proof.
  intros Hc Hk. split_keys Hk. revert Hc. unfold Filter.candidate.
  destruct (Filter.rule_based_filter it) as [[dec ann]|e]; bind_simpl;
    [|congruence].
  destruct dec; intros [= <- <-]; keep_key.
Qed.

Lemma candidate_decided it d dec :
  Filter.candidate it = Ok (Some dec, d) -> decided_by_rules it = true.
Proof.
  unfold Filter.candidate, decided_by_rules.
  destruct (Filter.rule_based_filter it) as [[[x|] ann]|e]; bind_simpl;
    congruence.
Qed.

Lemma candidate_ambiguous it d :
  Filter.candidate it = Ok (None, d) ->
  decided_by_rules it = false /\ ambiguous_by_rules it = true.
Proof.
  unfold Filter.candidate, decided_by_rules, ambiguous_by_rules.
  destruct (Filter.rule_based_filter it) as [[[x|] ann]|e]; bind_simpl;
    [congruence | done | congruence].
Qed.

Lemma decided_not_ambiguous it :
  decided_by_rules it = true -> ambiguous_by_rules it = false.
Proof.
  unfold decided_by_rules, ambiguous_by_rules.
  destruct (Filter.rule_based_filter it) as [[[x|] ann]|e]; congruence.
Qed.

Lemma decide_one_keeps chat i it d k :
  Gateway.decide_one chat i it = Ok d ->
  record_key k = true ->
  Dict.get k d = Dict.get k it.
Proof.
  intros Hd Hk. split_keys Hk. revert Hd. unfold Gateway.decide_one.
  destruct (chat i it) as [raw|e]; bind_simpl; [|congruence].
  destruct (model_validate raw) as [dec|e]; bind_simpl; [|congruence].
  intros [= <-]. keep_key.
Qed.

Lemma decide_one_raises chat i it raw e :
  chat i it = Ok raw ->
  model_validate raw = Raise e ->
  Gateway.decide_one chat i it = Raise e.
Proof.
  intros Hc Hv. unfold Gateway.decide_one. rewrite Hc. bind_simpl.
  by rewrite Hv.
Qed.

Lemma normalize_item_keeps it k :
  String.eqb k "review_status" = false ->
  Dict.get k (normalize_item it) = Dict.get k it.
Proof.
  intros Hk. unfold normalize_item.
  repeat case_match; try reflexivity; by rewrite get_set_ne.
Qed.

Lemma normalize_item_has_status it : has_status (normalize_item it) = true.
Proof.
  unfold normalize_item. fold (has_status it).
  destruct (has_status it) eqn:Hs; [exact Hs|].
  unfold has_status.
  repeat case_match; by rewrite mem_set_eq, get_set_eq.
Qed.

Lemma normalize_item_fixed it : has_status it = true -> normalize_item it = it.
Proof. intros Hs. unfold normalize_item. fold (has_status it). by rewrite Hs. Qed.

Lemma normalize_item_idem it :
  normalize_item (normalize_item it) = normalize_item it.
Proof. apply normalize_item_fixed, normalize_item_has_status. Qed.

(** ** The store *)

Lemma deref_lookup (h : heap) l d : h !! l = Some d -> deref h l = d.
Proof. unfold deref. by intros ->. Qed.

Lemma deref_app (h ds : heap) l : l < length h -> deref (h ++ ds) l = deref h l.
Proof. intros Hl. unfold deref. by rewrite lookup_app_l. Qed.

(** What [normalize_review_status] leaves at a location of the store. *)
Lemma normalize_lookup items (h : heap) l d :
  h !! l = Some d ->
  normalize_review_status items h !! l =
    Some (if bool_decide (l ∈ items) then normalize_item d else d).
Proof.
  unfold normalize_review_status. revert h d.
  induction items as [|l0 items IH]; intros h d Hl; simpl.
  - by rewrite Hl.
  - destruct (decide (l0 = l)) as [->|Hne].
    + rewrite (IH _ (normalize_item d)).
      2:{ rewrite list_lookup_alter_eq. by rewrite Hl. }
      rewrite normalize_item_idem.
      rewrite (bool_decide_eq_true_2 (l ∈ l :: items)) by left.
      by case_bool_decide.
    + rewrite (IH _ d).
      2:{ by rewrite list_lookup_alter_ne. }
      f_equal.
      rewrite (bool_decide_ext (l ∈ l0 :: items) (l ∈ items)); [done|].
      rewrite elem_of_cons. split; [intros [->|?]; done | by right].
Qed.

Lemma normalize_length items (h : heap) :
  length (normalize_review_status items h) = length h.
Proof.
  unfold normalize_review_status. revert h.
  induction items as [|l items IH]; intros h; simpl; [done|].
  by rewrite IH, length_alter.
Qed.

Lemma derived_at_app h ds l it :
  derived_at h l it -> derived_at (h ++ ds) l it.
Proof.
  intros (fd & d & Hc & Hl). exists fd, d. split; [done|].
  by apply lookup_app_l_Some.
Qed.

(** The loop of [filter_candidates] allocates one dict per record, in the
    order of the records, and appends its location to one of the two lists. *)
Lemma filter_loop_spec items : forall decided ambiguous h decided' ambiguous' h',
  Filter.filter_loop items decided ambiguous h = Ok (decided', ambiguous', h') ->
  exists D A ds,
    decided' = decided ++ D /\ ambiguous' = ambiguous ++ A /\ h' = h ++ ds /\
    Forall2 (derived_at h') D (List.filter decided_by_rules items) /\
    Forall2 (derived_at h') A (List.filter ambiguous_by_rules items).
Proof.
  induction items as [|it items IH]; intros dec amb h dec' amb' h'; simpl.
  - intros [= <- <- <-]. exists [], [], [].
    rewrite !app_nil_r. repeat split; constructor.
  - destruct (Filter.candidate it) as [[fd d]|e] eqn:Hc; bind_simpl;
      [|congruence].
    destruct fd as [fd|]; intros Hloop;
      destruct (IH _ _ _ _ _ _ Hloop) as (D & A & ds & -> & -> & -> & HD & HA).
    + pose proof (candidate_decided _ _ _ Hc) as Hdec.
      rewrite Hdec, (decided_not_ambiguous _ Hdec).
      exists (length h :: D), A, (d :: ds).
      rewrite <- !app_assoc in *. simpl in *. split_and!; try done.
      constructor; [|done].
      exists (Some fd), d. split; [done|]. by rewrite list_lookup_middle.
    + destruct (candidate_ambiguous _ _ Hc) as [Hdec Hamb].
      rewrite Hdec, Hamb.
      exists D, (length h :: A), (d :: ds).
      rewrite <- !app_assoc in *. simpl in *. split_and!; try done.
      constructor; [|done].
      exists None, d. split; [done|]. by rewrite list_lookup_middle.
Qed.

(** The loop of [llm_decide_ambiguous] allocates one dict per ambiguous
    location, in order.  [h0] is the store at the call. *)
Lemma llm_loop_spec chat h0 amb : forall i out ds0 out' h',
  Forall (fun l => l < length h0) amb ->
  Gateway.llm_loop chat amb i out (h0 ++ ds0) = Ok (out', h') ->
  exists L ds,
    out' = out ++ L /\ h' = h0 ++ ds0 ++ ds /\
    Forall2 (resolved_at chat h0 h') L amb.
Proof.
  induction amb as [|l amb IH]; intros i out ds0 out' h' Hval; simpl.
  - intros [= <- <-]. exists [], []. rewrite !app_nil_r.
    repeat split. constructor.
  - inversion Hval as [|? ? Hl Hval']; subst.
    rewrite (deref_app h0 ds0 l Hl).
    destruct (Gateway.decide_one chat i (deref h0 l)) as [d2|e] eqn:Hd;
      bind_simpl; [|congruence].
    rewrite <- app_assoc. intros Hloop.
    apply IH in Hloop as (L & ds & -> & -> & HL); [|done].
    exists (length (h0 ++ ds0) :: L), (d2 :: ds).
    rewrite <- !app_assoc in *. simpl in *. split_and!; try done.
    constructor; [|done].
    exists i, d2. split; [done|].
    rewrite app_assoc. by rewrite list_lookup_middle.
Qed.

Lemma Forall2_map_eq {A B C} (f : A -> C) (g : B -> C) l k :
  Forall2 (fun x y => f x = g y) l k -> map f l = map g k.
Proof. induction 1; simpl; congruence. Qed.

Lemma Forall2_compose {A B C} (R : A -> B -> Prop) (S : B -> C -> Prop) l k m :
  Forall2 R l k -> Forall2 S k m ->
  Forall2 (fun x z => exists y, R x y /\ S y z) l m.
Proof.
  intros HR. revert m. induction HR; intros m HS; inversion HS; subst;
    constructor; eauto.
Qed.

Lemma record_key_not_status k :
  record_key k = true -> String.eqb k "review_status" = false.
Proof. intros Hk. split_keys Hk. assumption. Qed.

Lemma derived_at_valid h l it : derived_at h l it -> l < length h.
Proof. intros (fd & d & _ & Hl). by eapply lookup_lt_Some. Qed.

(** Every decision of the rules stage is tagged [rules]. *)
Lemma rule_based_filter_stage it d ann :
  Filter.rule_based_filter it = Ok (Some d, ann) -> Filter.stage d = "rules".
Proof.
  unfold Filter.rule_based_filter.
  do 2 head_bind. cbv zeta. unfold mbind, result_bind.
  repeat case_match; intros [= <- <-] || intros [=]; reflexivity.
Qed.

Lemma candidate_stage it fd d :
  Filter.candidate it = Ok (fd, d) ->
  Dict.get "filter_stage" d = VStr "rules".
Proof.
  unfold Filter.candidate.
  destruct (Filter.rule_based_filter it) as [[dec ann]|e] eqn:Hr; bind_simpl;
    [|congruence].
  destruct dec as [dec|]; intros [= <- <-].
  - rewrite <- (rule_based_filter_stage _ _ _ Hr).
    unfold Dict.update; cbn [fold_left fst snd].
    do 4 (rewrite get_set_ne by reflexivity). by rewrite get_set_eq.
  - unfold Dict.update; cbn [fold_left fst snd]. by rewrite get_set_eq.
Qed.

Lemma decide_one_stage chat i it d :
  Gateway.decide_one chat i it = Ok d ->
  Dict.get "filter_stage" d = VStr "llm".
Proof.
  unfold Gateway.decide_one.
  destruct (chat i it) as [raw|e]; bind_simpl; [|congruence].
  destruct (model_validate raw) as [dec|e]; bind_simpl; [|congruence].
  intros [= <-]. unfold Dict.update; cbn [fold_left fst snd].
  do 7 (rewrite get_set_ne by reflexivity). by rewrite get_set_eq.
Qed.

(** The run of the orchestrator, stage by stage. *)
Lemma run_pipeline_spec chat harvest decided ambiguous all_items h :
  run_pipeline chat harvest = Ok (decided, ambiguous, all_items, h) ->
  exists items llm_results h1 h2,
    harvest = Ok items /\
    all_items = decided ++ llm_results /\
    h = normalize_review_status all_items h2 /\
    (exists ds, h2 = h1 ++ ds) /\
    Forall2 (derived_at h1) decided (List.filter decided_by_rules items) /\
    Forall2 (derived_at h1) ambiguous (List.filter ambiguous_by_rules items) /\
    Forall2 (resolved_at chat h1 h2) llm_results ambiguous.
Proof.
  unfold run_pipeline. destruct harvest as [items|e]; bind_simpl; [|congruence].
  destruct (Filter.filter_candidates items []) as [[[dec amb] h1]|e] eqn:Hf;
    bind_simpl; [|congruence].
  apply filter_loop_spec in Hf as (D & A & ds & HD & HA & Hh & HFD & HFA).
  simpl in HD, HA, Hh. subst dec amb h1.
  assert (exists L h2 ds2,
    (match A with
     | [] => Ok ([], ds)
     | _ => Gateway.llm_decide_ambiguous chat A ds
     end) = Ok (L, h2) /\ h2 = ds ++ ds2 /\
    Forall2 (resolved_at chat ds h2) L A \/
    exists e, (match A with
     | [] => Ok ([], ds)
     | _ => Gateway.llm_decide_ambiguous chat A ds
     end) = Raise e) as Hllm.
  { destruct A as [|a A'].
    - exists [], ds, []. left. rewrite app_nil_r. split_and!; [done..|constructor].
    - destruct (Gateway.llm_decide_ambiguous chat (a :: A') ds)
        as [[L h2]|e] eqn:Hl.
      + unfold Gateway.llm_decide_ambiguous in Hl.
        rewrite <- (app_nil_r ds) in Hl at 1.
        apply llm_loop_spec in Hl as (L' & ds2 & HL & Hh2 & HF).
        * simpl in HL, Hh2. subst. exists L', (ds ++ ds2), ds2. left. done.
        * eapply Forall2_Forall_l; [exact HFA|].
          apply Forall_forall. intros it _ l Hd.
          by eapply derived_at_valid.
      + exists [], [], []. right. by exists e. }
  destruct Hllm as (L & h2 & ds2 & [(Hl & Hh2 & HFL) | [e He]]).
  - rewrite Hl. bind_simpl. intros [= <- <- <- <-].
    exists items, L, ds, h2. split_and!; try done. by exists ds2.
  - rewrite He. bind_simpl. congruence.
Qed.


(** ** The orchestrator: order of [all_items] *)

(** C5.  When a run of the orchestrator returns, [all_items] is the list
    [decided] followed by the list of the oracle-resolved items, and nothing
    is re-sorted: read through any field of the harvested record (any key that
    no stage writes), [decided] is the sublist of the input records that the
    rules decided, [ambiguous] and the oracle-resolved list are the sublist of
    the input records that the rules left open, each in the order of the
    input.  The decided items carry the stage [rules], the resolved ones the
    stage [llm]. *)
Theorem all_items_is_decided_then_resolved
    chat harvest decided ambiguous all_items h :
  run_pipeline chat harvest = Ok (decided, ambiguous, all_items, h) ->
  exists items llm_results,
    harvest = Ok items /\
    all_items = decided ++ llm_results /\
    Forall (fun l => Dict.get "filter_stage" (deref h l) = VStr "rules")
           decided /\
    Forall (fun l => Dict.get "filter_stage" (deref h l) = VStr "llm")
           llm_results /\
    forall k, record_key k = true ->
      map (fun l => Dict.get k (deref h l)) decided
        = map (Dict.get k) (List.filter decided_by_rules items) /\
      map (fun l => Dict.get k (deref h l)) ambiguous
        = map (Dict.get k) (List.filter ambiguous_by_rules items) /\
      map (fun l => Dict.get k (deref h l)) llm_results
        = map (Dict.get k) (List.filter ambiguous_by_rules items).
Proof.
  intros Hrun.
  apply run_pipeline_spec in Hrun
    as (items & L & h1 & h2 & Hh & Hall & Hn & [ds Hh2] & HD & HA & HL).
  exists items, L. split_and!; [done..| | |].
  - (* decided items are tagged rules *)
    apply Forall_forall. intros l Hl.
    apply list_elem_of_lookup in Hl as [n Hn'].
    destruct (Forall2_lookup_l _ _ _ _ _ HD Hn') as (it & _ & fd & d & Hc & Hd).
    subst h h2. erewrite deref_lookup.
    2:{ apply normalize_lookup. by apply lookup_app_l_Some. }
    case_bool_decide; [rewrite normalize_item_keeps by reflexivity|];
      by eapply candidate_stage.
  - (* resolved items are tagged llm *)
    apply Forall_forall. intros l Hl.
    apply list_elem_of_lookup in Hl as [n Hn'].
    destruct (Forall2_lookup_l _ _ _ _ _ HL Hn') as (a & _ & i & d2 & Hd & Hl2).
    subst h. erewrite deref_lookup.
    2:{ apply normalize_lookup. exact Hl2. }
    case_bool_decide; [rewrite normalize_item_keeps by reflexivity|];
      by eapply decide_one_stage.
  - intros k Hk. pose proof (record_key_not_status _ Hk) as Hks.
    assert (forall l d, h2 !! l = Some d -> Dict.get k (deref h l) = Dict.get k d)
      as Hfinal.
    { intros l d Hl. subst h. erewrite deref_lookup.
      2:{ apply normalize_lookup. exact Hl. }
      case_bool_decide; [by rewrite normalize_item_keeps|done]. }
    assert (forall l it, derived_at h1 l it ->
              Dict.get k (deref h l) = Dict.get k it) as Hderived.
    { intros l it (fd & d & Hc & Hl).
      rewrite (Hfinal l d) by (subst h2; by apply lookup_app_l_Some).
      by eapply candidate_keeps. }
    split_and!.
    + apply Forall2_map_eq. eapply Forall2_impl; [exact HD|]. exact Hderived.
    + apply Forall2_map_eq. eapply Forall2_impl; [exact HA|]. exact Hderived.
    + apply Forall2_map_eq.
      eapply Forall2_impl; [exact (Forall2_compose _ _ _ _ _ HL HA)|].
      intros l2 it (a & (i & d2 & Hd & Hl2) & (fd & d & Hc & Hl)).
      rewrite (Hfinal l2 d2 Hl2).
      rewrite (decide_one_keeps _ _ _ _ _ Hd Hk).
      rewrite (deref_lookup _ _ _ Hl).
      by eapply candidate_keeps.
Qed.

Lemma all_items_is_decided_then_resolved_witness :
  run_pipeline good_oracle (Ok sample_records)
    = Ok ([0; 2; 4], [1; 3], [0; 2; 4; 5; 6], sample_heap) /\
  exists items llm_results,
    Ok sample_records = Ok items /\
    [0; 2; 4; 5; 6] = [0; 2; 4] ++ llm_results /\
    Forall (fun l => Dict.get "filter_stage" (deref sample_heap l) = VStr "rules")
           [0; 2; 4] /\
    Forall (fun l => Dict.get "filter_stage" (deref sample_heap l) = VStr "llm")
           llm_results /\
    forall k, record_key k = true ->
      map (fun l => Dict.get k (deref sample_heap l)) [0; 2; 4]
        = map (Dict.get k) (List.filter decided_by_rules items) /\
      map (fun l => Dict.get k (deref sample_heap l)) [1; 3]
        = map (Dict.get k) (List.filter ambiguous_by_rules items) /\
      map (fun l => Dict.get k (deref sample_heap l)) llm_results
        = map (Dict.get k) (List.filter ambiguous_by_rules items).
Proof.
  split; [vm_compute; reflexivity|].
  apply (all_items_is_decided_then_resolved good_oracle (Ok sample_records)
           [0; 2; 4] [1; 3] [0; 2; 4; 5; 6] sample_heap).
  vm_compute; reflexivity.
Defined.

(** ** The gateway: a malformed answer aborts the run *)

Lemma llm_loop_fails chat h0 amb : forall i out ds0 j l,
  Forall (fun l => l < length h0) amb ->
  amb !! j = Some l ->
  is_ok (Gateway.decide_one chat (i + j) (deref h0 l)) = false ->
  is_ok (Gateway.llm_loop chat amb i out (h0 ++ ds0)) = false.
Proof.
  induction amb as [|a amb IH]; intros i out ds0 j l Hval Hj Hbad; [done|].
  inversion Hval as [|? ? Ha Hval']; subst. simpl.
  rewrite (deref_app h0 ds0 a Ha).
  destruct j as [|j]; simpl in Hj.
  - injection Hj as ->. rewrite Nat.add_0_r in Hbad.
    destruct (Gateway.decide_one chat i (deref h0 l)); [done|reflexivity].
  - destruct (Gateway.decide_one chat i (deref h0 a)) as [d2|e]; bind_simpl;
      [|reflexivity].
    rewrite <- app_assoc. eapply IH; [done|exact Hj|].
    by replace (S i + j) with (i + S j) by lia.
Qed.

(** C6.  If the oracle answers the call for an ambiguous record with a
    payload that has no [reason], the schema validation fails, the gateway
    raises, the run of the orchestrator raises with it, and [main] leaves with
    status 1 before any manifest is built: no entry is produced for the
    record and no decision is substituted. *)
Theorem missing_reason_aborts_run
    chat harvest generated_at items decided ambiguous h i l d :
  harvest = Ok items ->
  Filter.filter_candidates items [] = Ok (decided, ambiguous, h) ->
  ambiguous !! i = Some l ->
  chat i (deref h l) = Ok (VDict d) ->
  Dict.lookup "reason" d = None ->
  model_validate (VDict d) = Raise ValidationError /\
  Gateway.decide_one chat i (deref h l) = Raise ValidationError /\
  (exists e, Gateway.llm_decide_ambiguous chat ambiguous h = Raise e) /\
  (exists e, run_pipeline chat harvest = Raise e) /\
  main chat harvest generated_at = inl 1%Z.
Proof.
  intros Hh Hf Hi Hc Hr.
  pose proof (model_validate_needs_reason d Hr) as Hv.
  pose proof (decide_one_raises _ _ _ _ _ Hc Hv) as Hd.
  assert (exists e, Gateway.llm_decide_ambiguous chat ambiguous h = Raise e)
    as [e He].
  { pose proof Hf as Hspec.
    apply filter_loop_spec in Hspec as (D & A & ds & _ & HA & _ & _ & HFA).
    simpl in HA. subst A.
    assert (is_ok (Gateway.llm_decide_ambiguous chat ambiguous h) = false)
      as Hbad.
    { unfold Gateway.llm_decide_ambiguous. rewrite <- (app_nil_r h) at 1.
      eapply llm_loop_fails; [|exact Hi|simpl; by rewrite Hd].
      eapply Forall2_Forall_l; [exact HFA|].
      apply Forall_forall. intros it _ x Hx. by eapply derived_at_valid. }
    destruct (Gateway.llm_decide_ambiguous chat ambiguous h); [done|eauto]. }
  assert (run_pipeline chat harvest = Raise e) as Hrun.
  { unfold run_pipeline. rewrite Hh. bind_simpl. rewrite Hf. bind_simpl.
    destruct ambiguous; [done|]. by rewrite He. }
  split_and!; [done|done|eauto|eauto|].
  unfold main. by rewrite Hrun.
Qed.

Lemma missing_reason_aborts_run_witness :
  (Ok sample_records = Ok sample_records /\
   Filter.filter_candidates sample_records []
     = Ok ([0; 2; 4], [1; 3], sample_candidates) /\
   [1; 3] !! 1%nat = Some 3 /\
   faulty_oracle 1 (deref (sample_candidates) 3)
     = Ok (VDict no_reason_response) /\
   Dict.lookup "reason" no_reason_response = None) /\
  model_validate (VDict no_reason_response) = Raise ValidationError /\
  Gateway.decide_one faulty_oracle 1 (deref (sample_candidates) 3)
    = Raise ValidationError /\
  (exists e, Gateway.llm_decide_ambiguous faulty_oracle [1; 3]
               (sample_candidates) = Raise e) /\
  (exists e, run_pipeline faulty_oracle (Ok sample_records) = Raise e) /\
  main faulty_oracle (Ok sample_records) "2024-05-02T00:00:00+00:00"
    = inl 1%Z.
Proof.
  assert (Filter.filter_candidates sample_records []
            = Ok ([0; 2; 4], [1; 3], sample_candidates)) as Hf
    by (vm_compute; reflexivity).
  split.
  - split_and!; [reflexivity | exact Hf | reflexivity | reflexivity
                 | reflexivity].
  - apply (missing_reason_aborts_run faulty_oracle (Ok sample_records)
             "2024-05-02T00:00:00+00:00" sample_records [0; 2; 4] [1; 3]
             (sample_candidates) 1 3 no_reason_response);
      [reflexivity | exact Hf | reflexivity | reflexivity | reflexivity].
Defined.

(** ** The normalizer *)

Lemma normalize_item_resolves it :
  has_status it = false ->
  Dict.get "review_status" (normalize_item it) =
    VStr (if truthy (Dict.get "needs_clarification" it)
          then "needs_clarification"
          else if is_True (Dict.get "include" it) then "included"
          else if is_False (Dict.get "include" it) then "excluded"
          else "needs_clarification").
Proof.
  intros Hs. unfold normalize_item. fold (has_status it). rewrite Hs.
  repeat case_match; by rewrite get_set_eq.
Qed.

(** C4.  An item of the list that enters the normalizer without a
    [review_status] set leaves it with exactly the status of the resolution
    order: [needs_clarification] when the flag is true, whatever [include]
    is; otherwise [included] for [include = True], [excluded] for
    [include = False], and [needs_clarification] for any other [include].
    Its other keys are untouched, and every item of the list has a status
    afterwards. *)
Theorem normalizer_resolution_order (items : list nat) (h : list dict) l it :
  l ∈ items ->
  h !! l = Some it ->
  let it' := deref (normalize_review_status items h) l in
  let flag := truthy (Dict.get "needs_clarification" it) in
  let include := Dict.get "include" it in
  has_status it' = true /\
  (has_status it = false ->
     (flag = true ->
        Dict.get "review_status" it' = VStr "needs_clarification") /\
     (flag = false -> include = VBool true ->
        Dict.get "review_status" it' = VStr "included") /\
     (flag = false -> include = VBool false ->
        Dict.get "review_status" it' = VStr "excluded") /\
     (flag = false -> (forall b, include <> VBool b) ->
        Dict.get "review_status" it' = VStr "needs_clarification") /\
     (forall k, String.eqb k "review_status" = false ->
        Dict.get k it' = Dict.get k it)).
Proof.
  intros Hin Hl it' flag include.
  assert (it' = normalize_item it) as ->.
  { unfold it'. erewrite deref_lookup; [|by apply normalize_lookup].
    by rewrite bool_decide_eq_true_2. }
  split; [apply normalize_item_has_status|].
  intros Hs. rewrite (normalize_item_resolves it Hs).
  fold flag include. split_and!.
  - by intros ->.
  - by intros -> ->.
  - by intros -> ->.
  - intros -> Hnb. destruct include as [|[|]| | | | |]; try done;
      by (exfalso; eapply Hnb).
  - intros k Hk. by apply normalize_item_keeps.
Qed.

Lemma normalizer_resolution_order_witness :
  (1 ∈ [0; 1] /\ sample_candidates !! 1%nat = Some (deref sample_candidates 1)) /\
  let it := deref sample_candidates 1 in
  let it' := deref (normalize_review_status [0; 1] sample_candidates) 1 in
  let flag := truthy (Dict.get "needs_clarification" it) in
  let include := Dict.get "include" it in
  has_status it' = true /\
  (has_status it = false ->
     (flag = true ->
        Dict.get "review_status" it' = VStr "needs_clarification") /\
     (flag = false -> include = VBool true ->
        Dict.get "review_status" it' = VStr "included") /\
     (flag = false -> include = VBool false ->
        Dict.get "review_status" it' = VStr "excluded") /\
     (flag = false -> (forall b, include <> VBool b) ->
        Dict.get "review_status" it' = VStr "needs_clarification") /\
     (forall k, String.eqb k "review_status" = false ->
        Dict.get k it' = Dict.get k it)).
Proof.
  split.
  - split; [|reflexivity]. apply list_elem_of_In. simpl. auto.
  - apply (normalizer_resolution_order [0; 1] sample_candidates 1
             (deref sample_candidates 1)).
    + apply list_elem_of_In. simpl. auto.
    + reflexivity.
Defined.

(** On every store the second pass is the identity. *)
Lemma normalize_review_status_idem (items : list nat) (h : list dict) :
  normalize_review_status items (normalize_review_status items h)
    = normalize_review_status items h.
Proof.
  apply list_eq. intros l.
  destruct (h !! l) as [d|] eqn:Hl.
  - rewrite (normalize_lookup items _ l _ (normalize_lookup items h l d Hl)).
    rewrite (normalize_lookup items h l d Hl).
    case_bool_decide; [by rewrite normalize_item_idem|done].
  - apply lookup_ge_None in Hl.
    rewrite !(proj2 (lookup_ge_None _ _)); [done|..];
      by rewrite ?normalize_length.
Qed.

Lemma manifest_entries_build generated_at repo a b (items : list dict) :
  manifest_entries (build_review_manifest generated_at repo a b items)
    = map review_entry items.
Proof.
  unfold manifest_entries.
  replace (Dict.get "entries"
             (build_review_manifest generated_at repo a b items))
    with (VList (map (fun it => VDict (review_entry it)) items))
    by reflexivity.
  induction items as [|it items IH]; [done|].
  cbn [map]. rewrite <- IH. reflexivity.
Qed.

Lemma review_entry_has_status it :
  has_status it = true -> has_status (review_entry it) = true.
Proof.
  unfold has_status. intros [_ Ht]%andb_true_iff. exact Ht.
Qed.

(** C7.  The normalizer is idempotent: on every list of items and every
    store, a second pass changes nothing.  In particular the entries of a
    manifest built from normalized items, one per item, are left as they are
    by another pass of the normalizer, so no entry changes its
    [review_status]. *)
Theorem normalizer_idempotent
    (items : list nat) (h : list dict) (ds : list dict)
    generated_at repo_url from_ref to_ref :
  normalize_review_status items (normalize_review_status items h)
    = normalize_review_status items h /\
  map normalize_item (map normalize_item ds) = map normalize_item ds /\
  let entries :=
    manifest_entries
      (build_review_manifest generated_at repo_url from_ref to_ref
         (map normalize_item ds)) in
  length entries = length ds /\
  map normalize_item entries = entries /\
  map (Dict.get "review_status") entries
    = map (fun it => Dict.get "review_status" (normalize_item it)) ds.
Proof.
  split; [apply normalize_review_status_idem|].
  split.
  { rewrite map_map. apply map_ext. intros. apply normalize_item_idem. }
  intros entries. unfold entries. rewrite manifest_entries_build.
  rewrite !map_map, length_map. split_and!; [done| |].
  - apply map_ext. intros it. apply normalize_item_fixed.
    apply review_entry_has_status, normalize_item_has_status.
  - apply map_ext. intros it. reflexivity.
Qed.

(** ** The schema: what validation checks *)

(** Writing one key of a response leaves the validation of the other fields
    as it was. *)
Ltac other_fields :=
  repeat (rewrite lookup_set_ne by reflexivity); assumption.










(** The response [excluded_with_category] validates although it carries a
    category with [include] false, and the gateway writes both into the
    item. *)
Lemma oracle_category_without_include :
  (exists dec,
     model_validate excluded_with_category = Ok dec /\
     category dec = Some feature /\
     include dec = false) /\
  (exists it2,
     Gateway.decide_one (fun _ _ => Ok excluded_with_category) 0 docs_record
       = Ok it2 /\
     Dict.get "category" it2 = VStr "feature" /\
     Dict.get "include" it2 = VBool false).
Proof.
  split; eexists; (split; [vm_compute; reflexivity|]); split; reflexivity.
Qed.

(** ** The rules stage *)

Lemma get_mem_falsy k d : Dict.mem k d = false -> truthy (Dict.get k d) = false.
Proof. unfold Dict.mem, Dict.get. by destruct (Dict.lookup k d). Qed.

(** The annotation [suggested_category] is written only next to an including
    decision. *)
Lemma suggested_category_included it dec ann :
  Filter.rule_based_filter it = Ok (dec, ann) ->
  Dict.mem "suggested_category" ann = true ->
  exists d, dec = Some d /\ Filter.include d = true.
Proof.
  unfold Filter.rule_based_filter.
  do 2 head_bind. cbv zeta. unfold mbind, result_bind.
  repeat case_match; intros [= <- <-] || intros [=];
    intros Hm; try discriminate Hm; eexists; split; reflexivity.
Qed.

(** C1 (as the code has it).  For every Decision of the rules stage a present
    category means [include] is true: the classifier suggests a category only
    with an including decision, and the item that [filter_candidates] derives
    from a record without a category of its own has a category only if its
    [include] is [True].  The schema of an oracle decision does not couple
    the two fields: a response that validates still validates, with the same
    category, for either value of [include]. *)
Theorem rules_category_implies_include it dec ann :
  Filter.rule_based_filter it = Ok (dec, ann) ->
  (Dict.mem "suggested_category" ann = true ->
     exists d, dec = Some d /\ Filter.include d = true) /\
  (forall fd it2,
     Filter.candidate it = Ok (fd, it2) ->
     truthy (Dict.get "category" it) = false ->
     truthy (Dict.get "category" it2) = true ->
     Dict.get "include" it2 = VBool true) /\
  (forall d decision b,
     model_validate (VDict d) = Ok decision ->
     model_validate (VDict (Dict.set "include" (VBool b) d))
     = Ok (mkLLMDecision b (category decision) (title decision)
             (description decision) (needs_clarification decision)
             (clarification_question decision) (reason decision))).
Proof.
  intros Hr. split_and!.
  - by eapply suggested_category_included.
  - intros fd it2. unfold Filter.candidate. rewrite Hr. bind_simpl.
    destruct dec as [fdec|]; intros [= <- <-] Hnone.
    + unfold Dict.update; cbn [fold_left fst snd].
      do 2 (rewrite (get_set_ne _ "category") by reflexivity).
      rewrite get_set_eq.
      rewrite (get_set_ne _ "category") by reflexivity.
      unfold py_or. rewrite Hnone. intros Hcat.
      do 6 (rewrite (get_set_ne _ "include") by reflexivity).
      rewrite get_set_eq.
      destruct (Dict.mem "suggested_category" ann) eqn:Hm.
      * destruct (suggested_category_included _ _ _ Hr Hm) as (x & [= <-] & ->).
        reflexivity.
      * by rewrite (get_mem_falsy _ _ Hm) in Hcat.
    + unfold Dict.update; cbn [fold_left fst snd].
      do 4 (rewrite (get_set_ne _ "category") by reflexivity).
      by rewrite Hnone.
  - intros d decision b Hv.
    apply model_validate_ok in Hv as (_ & Hcat & Ht & Hd & Hn & Hq & Hre).
    apply model_validate_intro; try other_fields.
    by rewrite lookup_set_eq.
Qed.

Lemma rules_category_implies_include_witness :
  Filter.rule_based_filter feat_record
    = Ok (Some (Filter.mkFilterDecision true
                  "Included as feature (conventional commit)." "rules" 0.9%Q),
          [("conventional_type", VStr "feat");
           ("suggested_category", VStr "feature")]) /\
  (Dict.mem "suggested_category"
     [("conventional_type", VStr "feat");
      ("suggested_category", VStr "feature")] = true ->
     exists d,
       Some (Filter.mkFilterDecision true
               "Included as feature (conventional commit)." "rules" 0.9%Q)
         = Some d /\ Filter.include d = true) /\
  (forall fd it2,
     Filter.candidate feat_record = Ok (fd, it2) ->
     truthy (Dict.get "category" feat_record) = false ->
     truthy (Dict.get "category" it2) = true ->
     Dict.get "include" it2 = VBool true) /\
  (forall d decision b,
     model_validate (VDict d) = Ok decision ->
     model_validate (VDict (Dict.set "include" (VBool b) d))
     = Ok (mkLLMDecision b (category decision) (title decision)
             (description decision) (needs_clarification decision)
             (clarification_question decision) (reason decision))).
Proof.
  split; [vm_compute; reflexivity|].
  apply (rules_category_implies_include feat_record).
  vm_compute; reflexivity.
Defined.








(** The reason of the exclusion of the version-bump record does not cite the
    [chore] pattern. *)
Lemma chore_pattern_is_not_cited :
  ~ (exists d ann,
       Filter.rule_based_filter chore_record = Ok (Some d, ann) /\
       Filter.include d = false /\
       Filter.confidence d = 0.9%Q /\
       Filter.reason d = "Excluded by subject pattern: ^chore\b").
Proof.
  intros (d & ann & Hr & _ & _ & Hreason).
  vm_compute in Hr. injection Hr as <- _. vm_compute in Hreason.
  discriminate Hreason.
Qed.

(** C9 (as the code has it).  A record with the subject
    [chore: bump dependency to 1.2.3], whatever its body and files, is
    excluded by the rules with confidence 0.9, and the pattern cited in the
    reason is [\bbump\b], the first pattern of the list that is found in the
    subject; the pattern [^chore\b] is found in it too and comes later in the
    list. *)
Theorem version_bump_is_excluded_by_bump_pattern it b :
  Dict.get "subject" it = VStr "chore: bump dependency to 1.2.3" ->
  as_str (py_or (Dict.get "body" it) (VStr "")) = Ok b ->
  Filter.rule_based_filter it
    = Ok (Some (Filter.mkFilterDecision false
                  "Excluded by subject pattern: \bbump\b" "rules" 0.9%Q),
          [("conventional_type", VStr "chore")]) /\
  Filter._matches_any Filter.DEFAULT_EXCLUDE_SUBJECT_PATTERNS
    "chore: bump dependency to 1.2.3" = Some "\bbump\b" /\
  map (fun p => (source p,
                 found (re_search p "chore: bump dependency to 1.2.3")))
      Filter.DEFAULT_EXCLUDE_SUBJECT_PATTERNS
    = [("\bbump\b", true); ("\bversion\b", false); ("\brelease\b", false);
       ("^chore\b", true); ("^refactor\b", false); ("^ci\b", false);
       ("^test\b", false); ("^build\b", false)].
Proof.
  intros Hs Hb. split_and!; [|vm_compute; reflexivity..].
  unfold Filter.rule_based_filter. rewrite Hs, Hb.
  reflexivity.
Qed.

Lemma version_bump_is_excluded_by_bump_pattern_witness :
  (Dict.get "subject" chore_record = VStr "chore: bump dependency to 1.2.3" /\
   as_str (py_or (Dict.get "body" chore_record) (VStr "")) = Ok "") /\
  Filter.rule_based_filter chore_record
    = Ok (Some (Filter.mkFilterDecision false
                  "Excluded by subject pattern: \bbump\b" "rules" 0.9%Q),
          [("conventional_type", VStr "chore")]) /\
  Filter._matches_any Filter.DEFAULT_EXCLUDE_SUBJECT_PATTERNS
    "chore: bump dependency to 1.2.3" = Some "\bbump\b" /\
  map (fun p => (source p,
                 found (re_search p "chore: bump dependency to 1.2.3")))
      Filter.DEFAULT_EXCLUDE_SUBJECT_PATTERNS
    = [("\bbump\b", true); ("\bversion\b", false); ("\brelease\b", false);
       ("^chore\b", true); ("^refactor\b", false); ("^ci\b", false);
       ("^test\b", false); ("^build\b", false)].
Proof.
  split; [split; reflexivity|].
  apply (version_bump_is_excluded_by_bump_pattern chore_record "");
    reflexivity.
Defined.

(** ** The renderer *)

Import Render.

Lemma eq_str_true v s : eq_str v s = true <-> v = VStr s.
Proof.
  destruct v; simpl; try (split; congruence).
  rewrite String.eqb_eq. split; congruence.
Qed.

Lemma select_app key value (a b : list dict) :
  select key value (a ++ b) = select key value a ++ select key value b.
Proof. unfold select. apply List.filter_app. Qed.

Lemma select_skip key value e (a b : list dict) :
  eq_str (Dict.get key e) value = false ->
  select key value (a ++ e :: b) = select key value (a ++ b).
Proof.
  intros He. rewrite !select_app. f_equal. unfold select. simpl.
  by rewrite He.
Qed.

Lemma select_In key value e (ds : list dict) :
  In e (select key value ds) -> Dict.get key e = VStr value.
Proof.
  unfold select. rewrite List.filter_In. intros [_ H]. by apply eq_str_true.
Qed.

Lemma select_cons key value e (b : list dict) :
  select key value (e :: b)
  = if eq_str (Dict.get key e) value then e :: select key value b
    else select key value b.
Proof. reflexivity. Qed.

Lemma select_select_skip key value e (a b : list dict) :
  eq_str (Dict.get key e) value = false ->
  select key value (select "review_status" "included" (a ++ e :: b))
  = select key value (select "review_status" "included" (a ++ b)).
Proof.
  intros He. rewrite (select_app "review_status" _ a (e :: b)), select_cons.
  destruct (eq_str (Dict.get "review_status" e) "included").
  - rewrite select_skip by exact He. by rewrite <- select_app.
  - by rewrite <- select_app.
Qed.

Lemma features_skip e a b :
  unselected e -> features (a ++ e :: b) = features (a ++ b).
Proof.
  intros [[Hs|[Hf _]] _]; unfold features.
  - by rewrite select_skip.
  - by apply select_select_skip.
Qed.

Lemma bugfixes_skip e a b :
  unselected e -> bugfixes (a ++ e :: b) = bugfixes (a ++ b).
Proof.
  intros [[Hs|[_ Hb]] _]; unfold bugfixes.
  - by rewrite select_skip.
  - by apply select_select_skip.
Qed.

Lemma needs_clar_skip e a b :
  unselected e -> needs_clar (a ++ e :: b) = needs_clar (a ++ b).
Proof. intros [_ Hc]. unfold needs_clar. by rewrite select_skip. Qed.

(** Whatever is computed from the entries gives the same with and without an
    entry it does not depend on, also when another entry is no dict. *)
Lemma all_dicts_skip {A} e (l1 l2 : list pyval) :
  forall (F : list dict -> result A),
  (forall ds1 ds2, F (ds1 ++ e :: ds2) = F (ds1 ++ ds2)) ->
  (all_dicts (l1 ++ VDict e :: l2) ≫= F) = (all_dicts (l1 ++ l2) ≫= F).
Proof.
  induction l1 as [|v l1 IH]; intros F HF.
  - simpl. bind_simpl. destruct (all_dicts l2) as [ds|x]; [|done].
    apply (HF [] ds).
  - simpl. destruct (as_dict v) as [d|x]; bind_simpl; [|done].
    specialize (IH (fun ds => F (d :: ds))).
    unfold mbind, result_bind in IH.
    destruct (all_dicts (l1 ++ VDict e :: l2)) as [ds|x],
             (all_dicts (l1 ++ l2)) as [ds'|x'];
      apply IH; intros ds1 ds2; apply (HF (d :: ds1) ds2).
Qed.

(** The Markdown does not change when an unselected entry is taken out of the
    manifest. *)
Lemma render_skip fr (m : dict) e (l1 l2 : list pyval) :
  unselected e ->
  render_release_notes_markdown fr
    (Dict.set "entries" (VList (l1 ++ VDict e :: l2)) m)
  = render_release_notes_markdown fr
      (Dict.set "entries" (VList (l1 ++ l2)) m).
Proof.
  intros He. unfold render_release_notes_markdown.
  unfold Dict.get_default.
  rewrite !(lookup_set_ne "entries" "metadata") by reflexivity.
  rewrite !lookup_set_eq.
  destruct (as_dict _) as [meta|x]; bind_simpl; [|done].
  apply (all_dicts_skip e l1 l2). intros ds1 ds2.
  by rewrite (features_skip e ds1 ds2 He), (bugfixes_skip e ds1 ds2 He),
             (needs_clar_skip e ds1 ds2 He).
Qed.

Lemma eq_str_false v s : v <> VStr s -> eq_str v s = false.
Proof.
  intros Hne. destruct (eq_str v s) eqn:E; [|done].
  by apply eq_str_true in E.
Qed.

Lemma features_In e ds :
  In e (features ds) ->
  Dict.get "review_status" e = VStr "included" /\
  Dict.get "category" e = VStr "feature".
Proof.
  unfold features. intros H. split; [|by eapply select_In].
  unfold select in H at 1. apply List.filter_In in H as [H _].
  by eapply select_In.
Qed.

Lemma bugfixes_In e ds :
  In e (bugfixes ds) ->
  Dict.get "review_status" e = VStr "included" /\
  Dict.get "category" e = VStr "bugfix".
Proof.
  unfold bugfixes. intros H. split; [|by eapply select_In].
  unfold select in H at 1. apply List.filter_In in H as [H _].
  by eapply select_In.
Qed.

(** The entry [unreviewed_entry] has no [review_status]; the renderer does not
    put it into the clarification section, and the Markdown of a manifest
    that holds only this entry has no such section and does not mention the
    entry. *)
Lemma missing_status_is_not_surfaced :
  Dict.lookup "review_status" unreviewed_entry = None /\
  needs_clar [unreviewed_entry] = [] /\
  exists md,
    render_release_notes_markdown no_floats (sample_manifest [unreviewed_entry])
      = Ok md /\
    contains "Needs clarification" md = false /\
    contains "export invoices" md = false.
Proof.
  split; [reflexivity|]. split; [reflexivity|].
  eexists. split; [vm_compute; reflexivity|]. split; vm_compute; reflexivity.
Qed.

(** C3 (as the code has it).  A manifest entry whose [review_status] is
    missing is not treated as included: it is in neither the Features nor the
    Bug Fixes section.  It is not treated as [needs_clarification] either:
    it is not in the clarification section, and the Markdown is the one of
    the manifest without the entry. *)
Theorem missing_status_entry_is_dropped fr (m : dict) e :
  Dict.lookup "review_status" e = None ->
  (forall ds,
     ~ In e (features ds) /\ ~ In e (bugfixes ds) /\ ~ In e (needs_clar ds)) /\
  (forall l1 l2 : list pyval,
     render_release_notes_markdown fr
       (Dict.set "entries" (VList (l1 ++ VDict e :: l2)) m)
     = render_release_notes_markdown fr
         (Dict.set "entries" (VList (l1 ++ l2)) m)).
Proof.
  intros Hnone.
  assert (Dict.get "review_status" e = VNone) as Hget
    by (unfold Dict.get; by rewrite Hnone).
  split.
  - intros ds. split_and!.
    + intros [H _]%features_In. congruence.
    + intros [H _]%bugfixes_In. congruence.
    + intros H%select_In. congruence.
  - intros l1 l2. apply render_skip. unfold unselected. rewrite Hget.
    split; [by left|done].
Qed.

Lemma missing_status_entry_is_dropped_witness :
  Dict.lookup "review_status" unreviewed_entry = None /\
  (forall ds,
     ~ In unreviewed_entry (features ds) /\
     ~ In unreviewed_entry (bugfixes ds) /\
     ~ In unreviewed_entry (needs_clar ds)) /\
  (forall l1 l2 : list pyval,
     render_release_notes_markdown no_floats
       (Dict.set "entries" (VList (l1 ++ VDict unreviewed_entry :: l2))
          (sample_manifest []))
     = render_release_notes_markdown no_floats
         (Dict.set "entries" (VList (l1 ++ l2)) (sample_manifest []))).
Proof.
  split; [reflexivity|].
  apply (missing_status_entry_is_dropped no_floats (sample_manifest [])
           unreviewed_entry).
  reflexivity.
Defined.

(** C10.  A manifest entry with [review_status] equal to [included] whose
    category is neither [feature] nor [bugfix] is in neither the Features nor
    the Bug Fixes section, and it is omitted without a trace: the Markdown is
    the one of the manifest without the entry. *)
Theorem included_without_category_is_omitted fr (m : dict) e :
  Dict.get "review_status" e = VStr "included" ->
  Dict.get "category" e <> VStr "feature" ->
  Dict.get "category" e <> VStr "bugfix" ->
  (forall ds, ~ In e (features ds) /\ ~ In e (bugfixes ds)) /\
  (forall l1 l2 : list pyval,
     render_release_notes_markdown fr
       (Dict.set "entries" (VList (l1 ++ VDict e :: l2)) m)
     = render_release_notes_markdown fr
         (Dict.set "entries" (VList (l1 ++ l2)) m)).
Proof.
  intros Hs Hf Hb. split.
  - intros ds. split.
    + by intros [_ H]%features_In.
    + by intros [_ H]%bugfixes_In.
  - intros l1 l2. apply render_skip. unfold unselected. split.
    + right. split; by apply eq_str_false.
    + rewrite Hs. reflexivity.
Qed.

Lemma included_without_category_is_omitted_witness :
  (Dict.get "review_status" uncategorized_entry = VStr "included" /\
   Dict.get "category" uncategorized_entry <> VStr "feature" /\
   Dict.get "category" uncategorized_entry <> VStr "bugfix") /\
  (forall ds,
     ~ In uncategorized_entry (features ds) /\
     ~ In uncategorized_entry (bugfixes ds)) /\
  (forall l1 l2 : list pyval,
     render_release_notes_markdown no_floats
       (Dict.set "entries" (VList (l1 ++ VDict uncategorized_entry :: l2))
          (sample_manifest []))
     = render_release_notes_markdown no_floats
         (Dict.set "entries" (VList (l1 ++ l2)) (sample_manifest []))).
Proof.
  split; [split_and!; [reflexivity | discriminate | discriminate]|].
  apply (included_without_category_is_omitted no_floats (sample_manifest [])
           uncategorized_entry);
    [reflexivity | discriminate | discriminate].
Defined.


(** * Further properties of the code *)

(** ** rn/filtering.py: the soft file score *)

Lemma count_internal_bounds fs : forall n k,
  Filter.count_internal fs n = Ok k -> n <= k <= n + length fs.
Proof.
  induction fs as [|f fs IH]; intros n k; simpl.
  - intros [= <-]. lia.
  - destruct f; try discriminate. intros H%IH.
    destruct (Filter.is_internal_file s); lia.
Qed.

Lemma count_internal_raises fs : forall n,
  Exists (fun v => forall s, v <> VStr s) fs ->
  Filter.count_internal fs n = Raise TypeError.
Proof.
  induction fs as [|f fs IH]; intros n Hex; [by inversion Hex|].
  simpl. destruct f as [| | | |s| |]; try reflexivity.
  apply IH. inversion Hex as [? ? Hbad|]; subst; [|done].
  by destruct (Hbad s).
Qed.

Lemma files_score_bounds files q :
  Filter._soft_internal_files_score files = Ok q -> (0 <= q)%Q /\ (q <= 1)%Q.
Proof.
  unfold Filter._soft_internal_files_score.
  destruct (truthy files) eqn:Ht; simpl.
  2:{ intros [= <-]. split; done. }
  destruct (py_iter files) as [fs|e]; bind_simpl; [|done].
  destruct (Filter.count_internal fs 0) as [k|e] eqn:Hk; bind_simpl; [|done].
  intros [= <-]. apply count_internal_bounds in Hk. split.
  - unfold Qle. simpl. lia.
  - unfold Qle. cbn [Qnum Qden].
    pose proof (positive_nat_Z (Pos.of_nat (Nat.max 1 (length fs)))) as Hp.
    rewrite Nat2Pos.id in Hp by lia. lia.
Qed.

(** X1.  The score of the file paths lies between 0 and 1 whenever it is
    computed, for every value of [files]; it is 0 for a value that is empty or
    [None]. *)
Theorem files_score_in_unit_interval files q :
  Filter._soft_internal_files_score files = Ok q ->
  (0 <= q)%Q /\ (q <= 1)%Q /\ (truthy files = false -> q = 0%Q).
Proof.
  intros Hq. destruct (files_score_bounds _ _ Hq) as [Hlo Hhi].
  split_and!; [exact Hlo|exact Hhi|].
  intros Ht. revert Hq. unfold Filter._soft_internal_files_score.
  rewrite Ht. simpl. by intros [= <-].
Qed.

Lemma files_score_in_unit_interval_witness :
  Filter._soft_internal_files_score
    (VList [VStr "docs/api.md"; VStr "app/retry.rb"; VStr "x_test.go"])
    = Ok (2 # 3) /\
  (0 <= 2 # 3)%Q /\ (2 # 3 <= 1)%Q /\
  (truthy (VList [VStr "docs/api.md"; VStr "app/retry.rb"; VStr "x_test.go"])
     = false -> 2 # 3 = 0%Q).
Proof.
  split; [vm_compute; reflexivity|].
  apply (files_score_in_unit_interval
           (VList [VStr "docs/api.md"; VStr "app/retry.rb"; VStr "x_test.go"])).
  vm_compute; reflexivity.
Defined.

(** X2.  The score fails with a [TypeError] on a list that holds a value which
    is no string, and on [True] or an integer other than 0, which cannot be
    iterated. *)
Theorem files_score_type_errors :
  (forall l, Exists (fun v => forall s, v <> VStr s) l ->
     Filter._soft_internal_files_score (VList l) = Raise TypeError) /\
  (forall z, z <> 0%Z ->
     Filter._soft_internal_files_score (VInt z) = Raise TypeError) /\
  Filter._soft_internal_files_score (VBool true) = Raise TypeError.
Proof.
  split_and!; [|by intros [] ?|done].
  intros l Hex. unfold Filter._soft_internal_files_score.
  destruct l as [|v l]; [by inversion Hex|].
  unfold mbind, result_bind. cbn [truthy negb py_iter].
  by rewrite (count_internal_raises (v :: l) 0 Hex).
Qed.

Lemma files_score_type_errors_witness :
  Filter._soft_internal_files_score (VList [VStr "docs/guide.md"; VInt 3])
    = Raise TypeError /\
  Filter._soft_internal_files_score (VInt 7) = Raise TypeError.
Proof.
  destruct files_score_type_errors as (Hlist & Hint & _). split.
  - apply Hlist. apply Exists_cons_tl, Exists_cons_hd. intros s. discriminate.
  - apply Hint. lia.
Defined.

(** ** rn/filtering.py: the decisions of the rules *)

(** Takes the two string conversions at the head of [rule_based_filter]
    apart and leaves its chain of tests. *)
Ltac open_rules :=
  unfold Filter.rule_based_filter;
  do 2 head_bind; cbv zeta; unfold mbind, result_bind.

(** X3.  A decision of the rules does not depend on the file paths, nor on any
    key of the record other than the subject and the body: a record with the
    same subject and body gets the same decision with the same annotations,
    and a record that is left open stays open whenever the rules return on
    it. *)
Theorem decision_reads_subject_and_body it it' :
  Dict.get "subject" it' = Dict.get "subject" it ->
  Dict.get "body" it' = Dict.get "body" it ->
  (forall d ann,
     Filter.rule_based_filter it = Ok (Some d, ann) ->
     Filter.rule_based_filter it' = Ok (Some d, ann)) /\
  (forall ann dec' ann',
     Filter.rule_based_filter it = Ok (None, ann) ->
     Filter.rule_based_filter it' = Ok (dec', ann') ->
     dec' = None /\
     Dict.get "conventional_type" ann' = Dict.get "conventional_type" ann).
Proof.
  intros Hs Hb. split.
  - intros d ann. unfold Filter.rule_based_filter. rewrite Hs, Hb.
    do 2 head_bind. cbv zeta. unfold mbind, result_bind.
    repeat case_match; congruence.
  - intros ann dec' ann'. unfold Filter.rule_based_filter. rewrite Hs, Hb.
    do 2 head_bind. cbv zeta. unfold mbind, result_bind.
    repeat case_match; intros [= <-] [= <- <-] || intros [=]
      || (intros _ [=]); done.
Qed.

Lemma decision_reads_subject_and_body_witness :
  (Dict.get "subject" (record "z9" "feat(billing): add proration" "" [])
     = Dict.get "subject" feat_record /\
   Dict.get "body" (record "z9" "feat(billing): add proration" "" [])
     = Dict.get "body" feat_record) /\
  (forall d ann,
     Filter.rule_based_filter feat_record = Ok (Some d, ann) ->
     Filter.rule_based_filter
       (record "z9" "feat(billing): add proration" "" []) = Ok (Some d, ann)) /\
  (forall ann dec' ann',
     Filter.rule_based_filter feat_record = Ok (None, ann) ->
     Filter.rule_based_filter
       (record "z9" "feat(billing): add proration" "" []) = Ok (dec', ann') ->
     dec' = None /\
     Dict.get "conventional_type" ann' = Dict.get "conventional_type" ann).
Proof.
  split; [split; reflexivity|].
  apply (decision_reads_subject_and_body feat_record
           (record "z9" "feat(billing): add proration" "" []));
    reflexivity.
Defined.

Lemma include_type_cases c cat :
  Filter.assoc c Filter.INCLUDE_TYPES = Some cat ->
  (c = "feat" /\ cat = "feature") \/ (c = "fix" /\ cat = "bugfix").
Proof.
  unfold Filter.INCLUDE_TYPES. cbn [Filter.assoc].
  destruct (String.eqb c "feat") eqn:E1.
  - apply String.eqb_eq in E1. intros [= <-]. by left.
  - destruct (String.eqb c "fix") eqn:E2; [|done].
    apply String.eqb_eq in E2. intros [= <-]. by right.
Qed.

(** X4.  Every decision of the rules is explained: it carries the stage
    [rules], a reason that is not empty and one of the three confidences of
    the code. An exclusion (0.95 for a merge, 0.9 for a subject pattern, 0.85
    for a body pattern) suggests no category; an inclusion always has
    confidence 0.9, and its category is [feature] for the type [feat] and
    [bugfix] for the type [fix], nothing else. *)
Theorem decision_envelope it d ann :
  Filter.rule_based_filter it = Ok (Some d, ann) ->
  Filter.stage d = "rules" /\
  Filter.reason d <> "" /\
  ((Filter.include d = false /\
    (Filter.confidence d = 0.95%Q \/ Filter.confidence d = 0.9%Q \/
     Filter.confidence d = 0.85%Q) /\
    Dict.lookup "suggested_category" ann = None) \/
   (Filter.include d = true /\
    Filter.confidence d = 0.9%Q /\
    ((Dict.lookup "conventional_type" ann = Some (VStr "feat") /\
      Dict.lookup "suggested_category" ann = Some (VStr "feature")) \/
     (Dict.lookup "conventional_type" ann = Some (VStr "fix") /\
      Dict.lookup "suggested_category" ann = Some (VStr "bugfix"))))).
Proof.
  open_rules.
  repeat case_match; intros [= <- <-] || intros [=];
    cbn [Filter.include Filter.confidence Filter.reason Filter.stage];
    (split; [reflexivity|]); (split; [discriminate|]);
    first
      [ left; split_and!; [reflexivity | tauto | reflexivity]
      | right; (split; [reflexivity|]); (split; [reflexivity|]);
        match goal with
        | H : option_bind _ _ _ (Filter.detect_type ?x) = Some _ |- _ =>
            destruct (Filter.detect_type x) as [c|]; [|discriminate H];
            apply include_type_cases in H as [[-> ->]|[-> ->]]; [left|right];
            split; reflexivity
        end ].
Qed.

Lemma decision_envelope_witness :
  Filter.rule_based_filter feat_record
    = Ok (Some (Filter.mkFilterDecision true
                  "Included as feature (conventional commit)." "rules" 0.9%Q),
          [("conventional_type", VStr "feat");
           ("suggested_category", VStr "feature")]) /\
  let d := Filter.mkFilterDecision true
             "Included as feature (conventional commit)." "rules" 0.9%Q in
  let ann := [("conventional_type", VStr "feat");
              ("suggested_category", VStr "feature")] in
  Filter.stage d = "rules" /\
  Filter.reason d <> "" /\
  ((Filter.include d = false /\
    (Filter.confidence d = 0.95%Q \/ Filter.confidence d = 0.9%Q \/
     Filter.confidence d = 0.85%Q) /\
    Dict.lookup "suggested_category" ann = None) \/
   (Filter.include d = true /\
    Filter.confidence d = 0.9%Q /\
    ((Dict.lookup "conventional_type" ann = Some (VStr "feat") /\
      Dict.lookup "suggested_category" ann = Some (VStr "feature")) \/
     (Dict.lookup "conventional_type" ann = Some (VStr "fix") /\
      Dict.lookup "suggested_category" ann = Some (VStr "bugfix"))))).
Proof.
  split; [vm_compute; reflexivity|].
  apply (decision_envelope feat_record). vm_compute; reflexivity.
Defined.

(** X5.  A record whose subject and body are ASCII texts is left open only
    when no strong signal was found: its subject is no merge and matches no
    hard-exclude pattern, its type is neither [feat] nor [fix], and the
    annotations are exactly the detected type and the file score, which lies
    between 0 and 1. *)
Theorem ambiguous_outcome it ann :
  ascii_field "subject" it = true ->
  ascii_field "body" it = true ->
  Filter.rule_based_filter it = Ok (None, ann) ->
  exists s t q,
    as_str (py_or (Dict.get "subject" it) (VStr "")) = Ok s /\
    found (re_match Filter.MERGE_RE (strip s)) = false /\
    Filter._matches_any Filter.DEFAULT_EXCLUDE_SUBJECT_PATTERNS (strip s)
      = None /\
    Filter.detect_type (strip s) = t /\
    t <> Some "feat" /\ t <> Some "fix" /\
    ann = [("conventional_type", opt_str t);
           ("internal_files_score", VFloat q)] /\
    (0 <= q)%Q /\ (q <= 1)%Q.
Proof.
  intros _ _. open_rules.
  repeat case_match; intros [= <-] || intros [=];
    match goal with
    | Hs : as_str (py_or (Dict.get "subject" _) _) = Ok ?a,
      Hq : Filter._soft_internal_files_score _ = Ok ?q,
      Ht : option_bind _ _ _ (Filter.detect_type _) = None |- _ =>
        exists a, (Filter.detect_type (strip a)), q;
        destruct (files_score_bounds _ _ Hq) as (H0' & H1');
        split_and!; try done;
        intros Heq; rewrite Heq in Ht; discriminate Ht
    end.
Qed.

Lemma ambiguous_outcome_witness :
  (ascii_field "subject" docs_record = true /\
   ascii_field "body" docs_record = true) /\
  Filter.rule_based_filter docs_record
    = Ok (None, [("conventional_type", VNone);
                 ("internal_files_score", VFloat 1)]) /\
  exists s t q,
    as_str (py_or (Dict.get "subject" docs_record) (VStr "")) = Ok s /\
    found (re_match Filter.MERGE_RE (strip s)) = false /\
    Filter._matches_any Filter.DEFAULT_EXCLUDE_SUBJECT_PATTERNS (strip s)
      = None /\
    Filter.detect_type (strip s) = t /\
    t <> Some "feat" /\ t <> Some "fix" /\
    [("conventional_type", VNone); ("internal_files_score", VFloat 1)]
      = [("conventional_type", opt_str t);
         ("internal_files_score", VFloat q)] /\
    (0 <= q)%Q /\ (q <= 1)%Q.
Proof.
  split; [split; reflexivity|].
  split; [vm_compute; reflexivity|].
  apply (ambiguous_outcome docs_record); [reflexivity..|].
  vm_compute; reflexivity.
Defined.

(** ** rn/filtering.py: [filter_candidates] *)

Lemma candidate_is_ok it :
  is_ok (Filter.candidate it) = is_ok (Filter.rule_based_filter it).
Proof.
  unfold Filter.candidate.
  by destruct (Filter.rule_based_filter it) as [[[d|] ann]|e].
Qed.

Lemma filter_loop_is_ok items : forall decided ambiguous h,
  is_ok (Filter.filter_loop items decided ambiguous h)
  = forallb (fun it => is_ok (Filter.rule_based_filter it)) items.
Proof.
  induction items as [|it items IH]; intros dec amb h; [done|].
  cbn [Filter.filter_loop forallb]. rewrite <- candidate_is_ok.
  destruct (Filter.candidate it) as [[[d|] it2]|e]; bind_simpl; [| |done];
    apply IH.
Qed.

Lemma filter_loop_first_error items : forall decided ambiguous h e,
  Filter.filter_loop items decided ambiguous h = Raise e ->
  exists i it,
    items !! i = Some it /\
    Filter.rule_based_filter it = Raise e /\
    forallb (fun it => is_ok (Filter.rule_based_filter it)) (take i items)
      = true.
Proof.
  induction items as [|it items IH]; intros dec amb h e; [done|].
  cbn [Filter.filter_loop].
  destruct (Filter.candidate it) as [[fd it2]|e'] eqn:Hc; bind_simpl.
  - assert (is_ok (Filter.rule_based_filter it) = true) as Hok
      by (by rewrite <- candidate_is_ok, Hc).
    destruct fd; intros (i & x & Hi & Hx & Hpre)%IH;
      exists (S i), x; simpl; by rewrite Hok.
  - intros [= ->]. exists 0, it. split_and!; [done| |done].
    revert Hc. unfold Filter.candidate.
    by destruct (Filter.rule_based_filter it) as [[[d|] ann]|?].
Qed.

(** X6.  [filter_candidates] returns exactly when the rules return on every
    record. When a record is ill-typed, the exception raised is the one of the
    first such record, and nothing is returned for the records before it. *)
Theorem filter_candidates_fails_as_a_whole items h :
  is_ok (Filter.filter_candidates items h)
    = forallb (fun it => is_ok (Filter.rule_based_filter it)) items /\
  (forall e,
     Filter.filter_candidates items h = Raise e ->
     exists i it,
       items !! i = Some it /\
       Filter.rule_based_filter it = Raise e /\
       forallb (fun it => is_ok (Filter.rule_based_filter it)) (take i items)
         = true).
Proof.
  split; [apply filter_loop_is_ok|].
  intros e. apply filter_loop_first_error.
Qed.

Lemma filter_candidates_fails_as_a_whole_witness :
  let items := [feat_record; [("subject", VInt 3)]; merge_record] in
  Filter.filter_candidates items [] = Raise AttributeError /\
  exists i it,
    items !! i = Some it /\
    Filter.rule_based_filter it = Raise AttributeError /\
    forallb (fun it => is_ok (Filter.rule_based_filter it)) (take i items)
      = true.
Proof.
  intros items.
  assert (Filter.filter_candidates items [] = Raise AttributeError) as H
    by (vm_compute; reflexivity).
  split; [exact H|].
  apply (proj2 (filter_candidates_fails_as_a_whole items [])). exact H.
Defined.

Lemma filter_loop_partition items : forall decided ambiguous h decided' ambiguous' h',
  Filter.filter_loop items decided ambiguous h = Ok (decided', ambiguous', h') ->
  exists D A ds,
    decided' = decided ++ D /\ ambiguous' = ambiguous ++ A /\ h' = h ++ ds /\
    length ds = length items /\
    D ++ A ≡ₚ seq (length h) (length items).
Proof.
  induction items as [|it items IH]; intros dec amb h dec' amb' h'; simpl.
  - intros [= <- <- <-]. exists [], [], []. by rewrite !app_nil_r.
  - destruct (Filter.candidate it) as [[fd d]|e]; bind_simpl; [|done].
    destruct fd as [fd|]; intros Hloop;
      destruct (IH _ _ _ _ _ _ Hloop) as (D & A & ds & -> & -> & -> & Hlen & Hp);
      rewrite length_app in Hp; simpl in Hp;
      replace (length h + 1) with (S (length h)) in Hp by lia.
    + exists (length h :: D), A, (d :: ds).
      rewrite <- !app_assoc. simpl. split_and!; [done..|lia|].
      by constructor.
    + exists D, (length h :: A), (d :: ds).
      rewrite <- !app_assoc. simpl. split_and!; [done..|lia|].
      rewrite <- Permutation_middle. by constructor.
Qed.

(** X7.  When [filter_candidates] returns, every record went to exactly one of
    the two lists: the decided and the ambiguous locations together are, up to
    order, the locations of the new dicts, one per record, and the dicts that
    were in the store before are left as they were. *)
Theorem filter_candidates_partitions items h decided ambiguous h' :
  Filter.filter_candidates items h = Ok (decided, ambiguous, h') ->
  decided ++ ambiguous ≡ₚ seq (length h) (length items) /\
  length decided + length ambiguous = length items /\
  length decided = length (List.filter decided_by_rules items) /\
  length ambiguous = length (List.filter ambiguous_by_rules items) /\
  (exists ds, h' = h ++ ds /\ length ds = length items) /\
  (forall l, l < length h -> h' !! l = h !! l).
Proof.
  intros Hf. pose proof Hf as Hf2.
  apply filter_loop_partition in Hf as (D & A & ds & HD & HA & -> & Hlen & Hp).
  apply filter_loop_spec in Hf2 as (D' & A' & ds' & HD' & HA' & _ & HFD & HFA).
  simpl in *. subst.
  split_and!; [done| | | | |].
  - apply Permutation_length in Hp. by rewrite length_app, length_seq in Hp.
  - by eapply Forall2_length.
  - by eapply Forall2_length.
  - by exists ds.
  - intros l Hl. by rewrite lookup_app_l.
Qed.

Lemma filter_candidates_partitions_witness :
  Filter.filter_candidates sample_records []
    = Ok ([0; 2; 4], [1; 3], sample_candidates) /\
  [0; 2; 4] ++ [1; 3] ≡ₚ seq (length (@nil dict)) (length sample_records) /\
  length [0; 2; 4] + length [1; 3] = length sample_records /\
  length [0; 2; 4] = length (List.filter decided_by_rules sample_records) /\
  length [1; 3] = length (List.filter ambiguous_by_rules sample_records) /\
  (exists ds, sample_candidates = [] ++ ds /\
              length ds = length sample_records) /\
  (forall l, l < length (@nil dict) ->
     sample_candidates !! l = (@nil dict) !! l).
Proof.
  split; [vm_compute; reflexivity|].
  apply (filter_candidates_partitions sample_records [] [0; 2; 4] [1; 3]
           sample_candidates).
  vm_compute; reflexivity.
Defined.

(** ** rn/schema.py: what the contract accepts *)

Lemma lookup_set_other k k' v d :
  String.eqb k k' = false ->
  Dict.lookup k' (Dict.set k v d) = Dict.lookup k' d.
Proof. intros H. apply lookup_set_ne. by rewrite String.eqb_sym. Qed.

(** X8.  Keys that the model does not declare are ignored: adding or changing
    such a key in a response changes neither whether it validates nor the
    decision that comes out. *)
Theorem model_validate_ignores_extra_keys d k v :
  existsb (String.eqb k) schema_fields = false ->
  model_validate (VDict (Dict.set k v d)) = model_validate (VDict d).
Proof.
  intros Hk. cbn [existsb schema_fields] in Hk.
  repeat (apply orb_false_elim in Hk as [? Hk]).
  unfold model_validate.
  by rewrite !lookup_set_other by assumption.
Qed.

Lemma model_validate_ignores_extra_keys_witness :
  existsb (String.eqb "confidence") schema_fields = false /\
  model_validate
    (VDict (Dict.set "confidence" (VFloat 0.7%Q) no_reason_response))
  = model_validate (VDict no_reason_response).
Proof.
  split; [reflexivity|].
  apply (model_validate_ignores_extra_keys no_reason_response "confidence").
  reflexivity.
Defined.

(** X9.  The contract rejects with a [ValidationError] a payload that is no
    JSON object, a payload without [include], and a payload whose category is
    anything but [feature], [bugfix] or [null]: no other category can reach
    the pipeline. *)
Theorem model_validate_rejects :
  (forall raw, (forall d, raw <> VDict d) ->
     model_validate raw = Raise ValidationError) /\
  (forall d, Dict.lookup "include" d = None ->
     model_validate (VDict d) = Raise ValidationError) /\
  (forall d v,
     Dict.lookup "category" d = Some v ->
     v <> VNone -> v <> VStr "feature" -> v <> VStr "bugfix" ->
     model_validate (VDict d) = Raise ValidationError).
Proof.
  split_and!.
  - intros raw Hraw. destruct raw; try reflexivity. by destruct (Hraw d).
  - intros d Hi. unfold model_validate. by rewrite Hi.
  - intros d v Hc Hn Hf Hb.
    destruct (model_validate (VDict d)) as [dec|e] eqn:Hv.
    + exfalso. apply model_validate_ok in Hv as (_ & Hcat & _).
      rewrite Hc in Hcat. destruct v as [| | | |s| |]; try done.
      simpl in Hcat. unfold mbind, result_bind in Hcat. simpl in Hcat.
      destruct (String.eqb s "feature") eqn:E1;
        [apply String.eqb_eq in E1; congruence|].
      destruct (String.eqb s "bugfix") eqn:E2;
        [apply String.eqb_eq in E2; congruence|].
      discriminate Hcat.
    + f_equal. by eapply model_validate_raises.
Qed.

Lemma model_validate_rejects_witness :
  model_validate (VStr "include it") = Raise ValidationError /\
  model_validate (VDict [("reason", VStr "Looks internal.")])
    = Raise ValidationError /\
  model_validate
    (VDict [("include", VBool true); ("category", VStr "docs");
            ("reason", VStr "Documentation change.")])
    = Raise ValidationError.
Proof.
  destruct model_validate_rejects as (Hraw & Hinclude & Hcategory).
  split_and!.
  - apply Hraw. intros d. discriminate.
  - apply Hinclude. reflexivity.
  - apply (Hcategory _ (VStr "docs")); [reflexivity|discriminate..].
Defined.

(** X10.  A decision that validated carries one of the two categories or none,
    and the category is the one the response gave. *)
Theorem validated_category d dec :
  model_validate (VDict d) = Ok dec ->
  match category dec with
  | Some c => Dict.lookup "category" d = Some (VStr (category_name c))
  | None => Dict.lookup "category" d = None \/
            Dict.lookup "category" d = Some VNone
  end.
Proof.
  intros (_ & Hcat & _)%model_validate_ok. revert Hcat.
  destruct (Dict.lookup "category" d) as [v|]; simpl.
  2:{ intros [= <-]. by left. }
  destruct v as [| | | |s| |]; simpl; try discriminate.
  { intros [= <-]. by right. }
  unfold mbind, result_bind. simpl.
  destruct (String.eqb s "feature") eqn:E1.
  { apply String.eqb_eq in E1 as ->. by intros [= <-]. }
  destruct (String.eqb s "bugfix") eqn:E2; [|discriminate].
  apply String.eqb_eq in E2 as ->. by intros [= <-].
Qed.

Lemma validated_category_witness :
  model_validate good_response
    = Ok (mkLLMDecision true (Some feature) (Some "Clearer API documentation")
            (Some "The API guide was rewritten.") false None
            "User-facing documentation change.") /\
  Dict.lookup "category"
    [("include", VBool true);
     ("category", VStr "feature");
     ("title", VStr "Clearer API documentation");
     ("description", VStr "The API guide was rewritten.");
     ("needs_clarification", VBool false);
     ("clarification_question", VNone);
     ("reason", VStr "User-facing documentation change.")]
    = Some (VStr (category_name feature)).
Proof.
  split; [vm_compute; reflexivity|].
  apply (validated_category _
           (mkLLMDecision true (Some feature) (Some "Clearer API documentation")
              (Some "The API guide was rewritten.") false None
              "User-facing documentation change.")).
  vm_compute; reflexivity.
Defined.

(** ** rn/filtering_llm.py: the items of the gateway *)

Lemma decide_one_ok chat i it d :
  Gateway.decide_one chat i it = Ok d ->
  exists raw dec,
    chat i it = Ok raw /\ model_validate raw = Ok dec /\
    Dict.get "include" d = VBool (include dec) /\
    Dict.get "needs_clarification" d = VBool (needs_clarification dec) /\
    Dict.get "category" d = opt_str (category_name <$> category dec) /\
    Dict.get "filter_reason" d = VStr (reason dec) /\
    Dict.lookup "review_status" d
      = Some (VStr (if needs_clarification dec then "needs_clarification"
                    else if include dec then "included" else "excluded")).
Proof.
  unfold Gateway.decide_one.
  destruct (chat i it) as [raw|e] eqn:Hc; bind_simpl; [|done].
  destruct (model_validate raw) as [dec|e] eqn:Hv; bind_simpl; [|done].
  intros [= <-]. exists raw, dec.
  unfold Dict.update; cbn [fold_left fst snd].
  split_and!; try done;
    first
      [ by rewrite lookup_set_eq
      | repeat (rewrite get_set_ne by reflexivity); by rewrite get_set_eq ].
Qed.

(** X11.  The status that the gateway gives an item: [needs_clarification]
    when the oracle set the flag, whatever [include] is, otherwise [included]
    or [excluded] after [include]. It is the status the normalizer would work
    out from the [include] and the flag that the gateway stores, and the
    normalizer leaves the item as it is. *)
Theorem gateway_status_agrees_with_normalizer chat i it d :
  Gateway.decide_one chat i it = Ok d ->
  (exists dec,
     Dict.get "review_status" d
       = VStr (if needs_clarification dec then "needs_clarification"
               else if include dec then "included" else "excluded") /\
     Dict.get "include" d = VBool (include dec) /\
     Dict.get "needs_clarification" d = VBool (needs_clarification dec)) /\
  normalize_item d = d /\
  Dict.get "review_status"
    (normalize_item (Dict.set "review_status" VNone d))
    = Dict.get "review_status" d.
Proof.
  intros (raw & dec & _ & _ & Hi & Hn & _ & _ & Hs)%decide_one_ok.
  assert (Dict.get "review_status" d
          = VStr (if needs_clarification dec then "needs_clarification"
                  else if include dec then "included" else "excluded")) as Hg
    by (unfold Dict.get; by rewrite Hs).
  split_and!.
  - by exists dec.
  - apply normalize_item_fixed. unfold has_status, Dict.mem.
    rewrite Hs, Hg. by destruct (needs_clarification dec), (include dec).
  - rewrite normalize_item_resolves.
    2:{ unfold has_status. by rewrite get_set_eq, andb_false_r. }
    rewrite !get_set_ne by reflexivity. rewrite Hi, Hn, Hg.
    by destruct (needs_clarification dec), (include dec).
Qed.

Lemma gateway_status_agrees_with_normalizer_witness :
  let d := Dict.update
      [("include", VBool true); ("filter_stage", VStr "llm");
       ("filter_reason", VStr "User-facing documentation change.");
       ("category", VStr "feature");
       ("title", VStr "Clearer API documentation");
       ("description", VStr "The API guide was rewritten.");
       ("needs_clarification", VBool false);
       ("clarification_question", VNone);
       ("review_status", VStr "included")] docs_record in
  Gateway.decide_one good_oracle 0 docs_record = Ok d /\
  (exists dec,
     Dict.get "review_status" d
       = VStr (if needs_clarification dec then "needs_clarification"
               else if include dec then "included" else "excluded") /\
     Dict.get "include" d = VBool (include dec) /\
     Dict.get "needs_clarification" d = VBool (needs_clarification dec)) /\
  normalize_item d = d /\
  Dict.get "review_status"
    (normalize_item (Dict.set "review_status" VNone d))
    = Dict.get "review_status" d.
Proof.
  intros d. split; [vm_compute; reflexivity|].
  apply (gateway_status_agrees_with_normalizer good_oracle 0 docs_record d).
  vm_compute; reflexivity.
Defined.

Lemma llm_loop_shape chat amb : forall i out h out' h',
  Gateway.llm_loop chat amb i out h = Ok (out', h') ->
  exists ds,
    out' = out ++ seq (length h) (length amb) /\
    h' = h ++ ds /\ length ds = length amb.
Proof.
  induction amb as [|l amb IH]; intros i out h out' h'; simpl.
  - intros [= <- <-]. exists []. by rewrite !app_nil_r.
  - destruct (Gateway.decide_one chat i (deref h l)) as [d2|e]; bind_simpl;
      [|done].
    intros (ds & -> & -> & Hlen)%IH. exists (d2 :: ds).
    rewrite length_app. simpl.
    replace (length h + 1) with (S (length h)) by lia.
    rewrite <- !app_assoc. simpl. split_and!; [done..|lia].
Qed.

Lemma llm_loop_nth chat h0 amb : forall i out ds0 out' h',
  Forall (fun l => l < length h0) amb ->
  Gateway.llm_loop chat amb i out (h0 ++ ds0) = Ok (out', h') ->
  forall n l, amb !! n = Some l ->
    exists d2,
      Gateway.decide_one chat (i + n) (deref h0 l) = Ok d2 /\
      h' !! (length h0 + length ds0 + n) = Some d2.
Proof.
  induction amb as [|a amb IH]; intros i out ds0 out' h' Hval; simpl;
    [done|].
  inversion Hval as [|? ? Ha Hval']; subst.
  rewrite (deref_app h0 ds0 a Ha).
  destruct (Gateway.decide_one chat i (deref h0 a)) as [d2|e] eqn:Hd;
    bind_simpl; [|congruence].
  rewrite <- app_assoc. intros Hloop [|n] l Hn.
  - injection Hn as <-. exists d2. rewrite Nat.add_0_r. split; [done|].
    apply llm_loop_shape in Hloop as (ds & _ & -> & _).
    rewrite Nat.add_0_r, <- length_app, <- !app_assoc. simpl.
    rewrite app_assoc. by rewrite list_lookup_middle.
  - destruct (IH _ _ _ _ _ Hval' Hloop n l Hn) as (d & Hdec & Hl).
    exists d. replace (i + S n) with (S i + n) by lia. split; [done|].
    rewrite length_app in Hl. simpl in Hl.
    by replace (length h0 + length ds0 + S n)
      with (length h0 + (length ds0 + 1) + n) by lia.
Qed.

(** X12.  When the gateway returns, it has made one new dict per ambiguous
    item and appended them to the store in the order of the items: the dict
    of the [n]-th item is the [n]-th new one, it is what the loop body makes
    of that item with the answer to the [n]-th call of the oracle, and it is
    the [n]-th element of the result.  Every dict that was in the store, the
    ambiguous ones among them, is left as it was.  On the empty list the
    gateway returns the empty list and the same store, whatever the oracle
    is. *)
Theorem gateway_allocates_one_item_each chat amb h out h' :
  Forall (fun l => l < length h) amb ->
  Gateway.llm_decide_ambiguous chat amb h = Ok (out, h') ->
  out = seq (length h) (length amb) /\
  (exists ds, h' = h ++ ds /\ length ds = length amb) /\
  (forall l, l < length h -> h' !! l = h !! l) /\
  (forall n l, amb !! n = Some l ->
     exists d2,
       Gateway.decide_one chat n (deref h l) = Ok d2 /\
       out !! n = Some (length h + n) /\
       h' !! (length h + n) = Some d2) /\
  Gateway.llm_decide_ambiguous chat [] h = Ok ([], h).
Proof.
  intros Hval Hloop. pose proof Hloop as Hnth.
  unfold Gateway.llm_decide_ambiguous in Hnth.
  rewrite <- (app_nil_r h) in Hnth.
  apply llm_loop_shape in Hloop as (ds & -> & -> & Hlen).
  split_and!; [done| | | |done].
  - by exists ds.
  - intros l Hl. by rewrite lookup_app_l.
  - intros n l Hn.
    destruct (llm_loop_nth _ _ _ _ _ _ _ _ Hval Hnth n l Hn) as (d2 & Hd & Hl).
    exists d2. simpl in Hl. rewrite Nat.add_0_r in Hl.
    split_and!; [done| |done].
    simpl. apply lookup_seq. split; [done|]. by eapply lookup_lt_Some.
Qed.

Lemma gateway_allocates_one_item_each_witness :
  Forall (fun l => l < length sample_candidates) [1; 3] /\
  Gateway.llm_decide_ambiguous good_oracle [1; 3] sample_candidates
    = Ok ([5; 6], sample_candidates ++ drop 5 sample_heap) /\
  [5; 6] = seq (length sample_candidates) (length [1; 3]) /\
  (exists ds,
     (sample_candidates ++ drop 5 sample_heap) = sample_candidates ++ ds /\
     length ds = length [1; 3]) /\
  (forall l, l < length sample_candidates ->
     (sample_candidates ++ drop 5 sample_heap) !! l = sample_candidates !! l) /\
  (forall n l, [1; 3] !! n = Some l ->
     exists d2,
       Gateway.decide_one good_oracle n (deref sample_candidates l) = Ok d2 /\
       [5; 6] !! n = Some (length sample_candidates + n) /\
       (sample_candidates ++ drop 5 sample_heap)
         !! (length sample_candidates + n) = Some d2) /\
  Gateway.llm_decide_ambiguous good_oracle [] sample_candidates
    = Ok ([], sample_candidates).
Proof.
  assert (Forall (fun l => l < length sample_candidates) [1; 3]) as Hval
    by (repeat constructor; vm_compute; lia).
  split; [exact Hval|].
  split; [vm_compute; reflexivity|].
  apply (gateway_allocates_one_item_each good_oracle [1; 3] sample_candidates);
    [exact Hval|].
  vm_compute; reflexivity.
Defined.

(** ** main.py: the orchestrator *)

(** X13.  The oracle is not consulted when the rules leave nothing open: the
    run then returns the decided items, normalized, and the same for every
    oracle. *)
Theorem no_ambiguity_no_oracle chat chat' harvest items decided h :
  harvest = Ok items ->
  Filter.filter_candidates items [] = Ok (decided, [], h) ->
  run_pipeline chat harvest
    = Ok (decided, [], decided, normalize_review_status decided h) /\
  run_pipeline chat' harvest = run_pipeline chat harvest.
Proof.
  intros -> Hf. unfold run_pipeline. bind_simpl. rewrite Hf. bind_simpl.
  by rewrite app_nil_r.
Qed.

Lemma no_ambiguity_no_oracle_witness :
  let h := [Dict.update
              [("filter_annotations", VDict []);
               ("include", VBool false);
               ("filter_reason",
                 VStr "Excluded merge commit (not user-facing entry).");
               ("filter_stage", VStr "rules");
               ("filter_confidence", VFloat 0.95%Q);
               ("category", VNone); ("title", VNone);
               ("description", VNone)] merge_record] in
  (Ok [merge_record] = Ok [merge_record] /\
   Filter.filter_candidates [merge_record] [] = Ok ([0], [], h)) /\
  run_pipeline good_oracle (Ok [merge_record])
    = Ok ([0], [], [0], normalize_review_status [0] h) /\
  run_pipeline faulty_oracle (Ok [merge_record])
    = run_pipeline good_oracle (Ok [merge_record]).
Proof.
  intros h. split; [split; vm_compute; reflexivity|].
  apply (no_ambiguity_no_oracle good_oracle faulty_oracle (Ok [merge_record])
           [merge_record] [0] h); vm_compute; reflexivity.
Defined.

Lemma candidate_keeps_status it fd d :
  Filter.candidate it = Ok (fd, d) ->
  Dict.lookup "review_status" d = Dict.lookup "review_status" it /\
  Dict.get "needs_clarification" d = Dict.get "needs_clarification" it.
Proof.
  unfold Filter.candidate.
  destruct (Filter.rule_based_filter it) as [[dec ann]|e]; bind_simpl;
    [|done].
  destruct dec; intros [= <- <-]; unfold Dict.update, Dict.get;
    cbn [fold_left fst snd];
    by rewrite !lookup_set_ne by reflexivity.
Qed.

Lemma candidate_include it fd d :
  Filter.candidate it = Ok (Some fd, d) ->
  Dict.get "include" d = VBool (Filter.include fd).
Proof.
  unfold Filter.candidate.
  destruct (Filter.rule_based_filter it) as [[dec ann]|e]; bind_simpl;
    [|done].
  destruct dec; intros [= <- <-]. unfold Dict.update. cbn [fold_left fst snd].
  do 6 (rewrite get_set_ne by reflexivity). by rewrite get_set_eq.
Qed.

Lemma three_statuses_resolved it :
  has_status it = false ->
  valid_status (Dict.get "review_status" (normalize_item it)).
Proof.
  intros Hs. rewrite (normalize_item_resolves it Hs). unfold valid_status.
  repeat case_match; tauto.
Qed.

(** X14.  After a run on records that carry no [review_status] of their own,
    every item of [all_items] has one of the three statuses. A rule-decided
    item of a record without a clarification flag is [included] exactly when
    the rules included it, and [excluded] otherwise. *)
Theorem run_assigns_three_statuses
    chat harvest items decided ambiguous all_items h :
  harvest = Ok items ->
  Forall (fun it => has_status it = false) items ->
  run_pipeline chat harvest = Ok (decided, ambiguous, all_items, h) ->
  Forall (fun l => valid_status (Dict.get "review_status" (deref h l)))
         all_items /\
  (Forall (fun it => truthy (Dict.get "needs_clarification" it) = false)
          items ->
   Forall (fun l =>
             Dict.get "review_status" (deref h l)
             = VStr (if is_True (Dict.get "include" (deref h l))
                     then "included" else "excluded"))
          decided).
Proof.
  intros Hh Hnone Hrun.
  apply run_pipeline_spec in Hrun
    as (items' & L & h1 & h2 & Hh' & -> & -> & [ds ->] & HD & HA & HL).
  rewrite Hh in Hh'. injection Hh' as <-.
  assert (forall l it, In l (decided ++ L) -> derived_at h1 l it ->
            deref (normalize_review_status (decided ++ L) (h1 ++ ds)) l
            = normalize_item (deref h1 l)) as Hnorm.
  { intros l it Hin (fd & d & Hc & Hl).
    erewrite deref_lookup.
    2:{ apply normalize_lookup. by apply lookup_app_l_Some. }
    rewrite bool_decide_eq_true_2 by (by apply list_elem_of_In).
    by rewrite (deref_lookup _ _ _ Hl). }
  assert (forall l it, In it items -> derived_at h1 l it ->
            has_status (deref h1 l) = false) as Hfresh.
  { intros l it Hin (fd & d & Hc & Hl). rewrite (deref_lookup _ _ _ Hl).
    rewrite Forall_forall in Hnone. specialize (Hnone it).
    destruct (candidate_keeps_status _ _ _ Hc) as [Hs _].
    rewrite <- (Hnone ltac:(by apply list_elem_of_In)).
    unfold has_status, Dict.mem, Dict.get. by rewrite Hs. }
  split.
  - apply Forall_app. split.
    + apply Forall_forall. intros l Hl.
      apply list_elem_of_lookup in Hl as [n Hn].
      destruct (Forall2_lookup_l _ _ _ _ _ HD Hn) as (it & Hit & Hder).
      assert (In it items) as Hin.
      { eapply (proj1 (List.filter_In decided_by_rules it items)).
        apply list_elem_of_In. by eapply list_elem_of_lookup_2. }
      rewrite (Hnorm l it); [|apply in_or_app; left;
        apply list_elem_of_In; by eapply list_elem_of_lookup_2|done].
      apply three_statuses_resolved. by eapply Hfresh.
    + apply Forall_forall. intros l Hl.
      apply list_elem_of_lookup in Hl as [n Hn].
      destruct (Forall2_lookup_l _ _ _ _ _ HL Hn) as (a & _ & i & d2 & Hd & Hl2).
      erewrite deref_lookup; [|by apply normalize_lookup].
      destruct (decide_one_ok _ _ _ _ Hd)
        as (raw & dec & _ & _ & _ & _ & _ & _ & Hs).
      assert (Dict.get "review_status" d2
              = VStr (if needs_clarification dec then "needs_clarification"
                      else if include dec then "included" else "excluded"))
        as Hst by (unfold Dict.get; by rewrite Hs).
      assert (normalize_item d2 = d2) as Hfix.
      { apply normalize_item_fixed. unfold has_status, Dict.mem.
        rewrite Hs, Hst. by destruct (needs_clarification dec), (include dec). }
      assert (valid_status (Dict.get "review_status" d2)) as Hv.
      { rewrite Hst. unfold valid_status. repeat case_match; tauto. }
      case_bool_decide; [by rewrite Hfix|done].
  - intros Hflag. apply Forall_forall. intros l Hl.
    pose proof Hl as Hl'.
    apply list_elem_of_lookup in Hl as [n Hn].
    destruct (Forall2_lookup_l _ _ _ _ _ HD Hn) as (it & Hit & Hder).
    assert (In it items) as Hin.
    { eapply (proj1 (List.filter_In decided_by_rules it items)).
      apply list_elem_of_In. by eapply list_elem_of_lookup_2. }
    rewrite (Hnorm l it); [|apply in_or_app; left; by apply list_elem_of_In
                           |done].
    pose proof (Hfresh l it Hin Hder) as Hs.
    destruct Hder as (fd & d & Hc & Hld). rewrite (deref_lookup _ _ _ Hld) in *.
    rewrite (normalize_item_resolves d Hs).
    rewrite normalize_item_keeps by reflexivity.
    destruct (candidate_keeps_status _ _ _ Hc) as [_ Hnc]. rewrite Hnc.
    rewrite Forall_forall in Hflag.
    rewrite (Hflag it ltac:(by apply list_elem_of_In)).
    destruct fd as [fd|].
    + rewrite (candidate_include _ _ _ Hc). by destruct (Filter.include fd).
    + exfalso. apply candidate_ambiguous in Hc as [Hc _].
      apply list_elem_of_lookup_2, list_elem_of_In in Hit.
      apply List.filter_In in Hit as [_ Hit]. congruence.
Qed.

Lemma run_assigns_three_statuses_witness :
  (Ok sample_records = Ok sample_records /\
   Forall (fun it => has_status it = false) sample_records /\
   run_pipeline good_oracle (Ok sample_records)
     = Ok ([0; 2; 4], [1; 3], [0; 2; 4; 5; 6], sample_heap)) /\
  Forall (fun l => valid_status (Dict.get "review_status"
                                   (deref sample_heap l)))
         [0; 2; 4; 5; 6] /\
  (Forall (fun it => truthy (Dict.get "needs_clarification" it) = false)
          sample_records ->
   Forall (fun l =>
             Dict.get "review_status" (deref sample_heap l)
             = VStr (if is_True (Dict.get "include" (deref sample_heap l))
                     then "included" else "excluded"))
          [0; 2; 4]).
Proof.
  assert (Forall (fun it => has_status it = false) sample_records) as Hnone
    by (repeat constructor).
  assert (run_pipeline good_oracle (Ok sample_records)
          = Ok ([0; 2; 4], [1; 3], [0; 2; 4; 5; 6], sample_heap)) as Hrun
    by (vm_compute; reflexivity).
  split; [split_and!; [reflexivity | exact Hnone | exact Hrun]|].
  apply (run_assigns_three_statuses good_oracle (Ok sample_records)
           sample_records [0; 2; 4] [1; 3] [0; 2; 4; 5; 6] sample_heap);
    [reflexivity | exact Hnone | exact Hrun].
Defined.

(** X15.  No record is dropped by a run that returns: [all_items] has as many
    items as records were harvested, the decided ones and one resolved item
    for each ambiguous one. *)
Theorem run_keeps_every_record
    chat harvest decided ambiguous all_items h :
  run_pipeline chat harvest = Ok (decided, ambiguous, all_items, h) ->
  exists items,
    harvest = Ok items /\
    length all_items = length items /\
    length decided + length ambiguous = length items /\
    length all_items = length decided + length ambiguous /\
    NoDup all_items.
Proof.
  intros Hrun. pose proof Hrun as Hrun2. revert Hrun2.
  unfold run_pipeline.
  destruct harvest as [items|e]; bind_simpl; [|done].
  destruct (Filter.filter_candidates items []) as [[[dec amb] h1]|e] eqn:Hf;
    bind_simpl; [|done].
  pose proof Hf as Hf'.
  apply filter_loop_partition in Hf'
    as (dec0 & amb0 & ds & Hdec & Hamb & Hh1 & Hds & Hp).
  simpl in Hdec, Hamb, Hh1, Hp. subst dec0 amb0 h1.
  assert (length dec + length amb = length items) as Hlen.
  { apply Permutation_length in Hp. by rewrite length_app, length_seq in Hp. }
  assert (exists L h2,
    (match amb with
     | [] => Ok ([], ds)
     | _ => Gateway.llm_decide_ambiguous chat amb ds
     end) = Ok (L, h2) /\ L = seq (length ds) (length amb) \/
    exists e, (match amb with
     | [] => Ok ([], ds)
     | _ => Gateway.llm_decide_ambiguous chat amb ds
     end) = Raise e) as Hllm.
  { destruct amb as [|a amb'].
    - exists [], ds. by left.
    - destruct (Gateway.llm_decide_ambiguous chat (a :: amb') ds)
        as [[L h2]|e] eqn:Hl.
      + exists L, h2. left. split; [done|].
        by apply llm_loop_shape in Hl as (ds2 & -> & _).
      + exists [], []. right. by exists e. }
  destruct Hllm as (L & h2 & [[Hl ->] | [e He]]).
  2:{ rewrite He. bind_simpl. done. }
  rewrite Hl. bind_simpl. intros [= <- <- <- <-].
  exists items. split_and!; [done| |done| |].
  - rewrite !length_app, length_seq. simpl. lia.
  - rewrite !length_app, length_seq. simpl. lia.
  - assert (NoDup (dec ++ amb)) as Hnd by (rewrite Hp; apply NoDup_seq).
    apply NoDup_app in Hnd as (Hnd & _ & _).
    simpl. apply NoDup_app. split_and!.
    + exact Hnd.
    + intros x Hx Hseq. apply elem_of_seq in Hseq.
      assert (x ∈ seq 0 (length items)) as Hx'
        by (rewrite <- Hp; apply elem_of_app; by left).
      apply elem_of_seq in Hx'. lia.
    + apply NoDup_seq.
Qed.

Lemma run_keeps_every_record_witness :
  run_pipeline good_oracle (Ok sample_records)
    = Ok ([0; 2; 4], [1; 3], [0; 2; 4; 5; 6], sample_heap) /\
  exists items,
    Ok sample_records = Ok items /\
    length [0; 2; 4; 5; 6] = length items /\
    length [0; 2; 4] + length [1; 3] = length items /\
    length [0; 2; 4; 5; 6] = length [0; 2; 4] + length [1; 3] /\
    NoDup [0; 2; 4; 5; 6].
Proof.
  split; [vm_compute; reflexivity|].
  apply (run_keeps_every_record good_oracle (Ok sample_records)
           [0; 2; 4] [1; 3] [0; 2; 4; 5; 6] sample_heap).
  vm_compute; reflexivity.
Defined.

(** ** main.py: the normalizer on the store *)

Lemma normalize_lookup_None items (h : list dict) l :
  h !! l = None -> normalize_review_status items h !! l = None.
Proof.
  intros Hl. apply lookup_ge_None. rewrite normalize_length.
  by apply lookup_ge_None.
Qed.

(** X16.  The normalizer never overwrites a status that is set, touches no
    dict outside its list and neither adds nor removes a dict. *)
Theorem normalizer_is_local (items : list nat) (h : list dict) :
  length (normalize_review_status items h) = length h /\
  (forall l, l ∉ items -> normalize_review_status items h !! l = h !! l) /\
  (forall l it, h !! l = Some it -> has_status it = true ->
     normalize_review_status items h !! l = Some it).
Proof.
  split_and!; [apply normalize_length| |].
  - intros l Hl. destruct (h !! l) as [d|] eqn:Hd.
    + rewrite (normalize_lookup items h l d Hd).
      by rewrite bool_decide_eq_false_2.
    + by apply normalize_lookup_None.
  - intros l it Hl Hs. rewrite (normalize_lookup items h l it Hl).
    rewrite (normalize_item_fixed it Hs). by case_bool_decide.
Qed.

Lemma normalizer_is_local_witness :
  length (normalize_review_status [0; 2] sample_candidates)
    = length sample_candidates /\
  normalize_review_status [0; 2] sample_candidates !! 1
    = sample_candidates !! 1 /\
  has_status (deref sample_heap 0) = true /\
  normalize_review_status [0; 2] sample_heap !! 0
    = Some (deref sample_heap 0).
Proof.
  destruct (normalizer_is_local [0; 2] sample_candidates) as (Hlen & Hout & _).
  destruct (normalizer_is_local [0; 2] sample_heap) as (_ & _ & Hset).
  split_and!.
  - exact Hlen.
  - apply Hout. rewrite !elem_of_cons, elem_of_nil. lia.
  - reflexivity.
  - apply Hset; reflexivity.
Defined.

(** X17.  The result of the normalizer depends on which locations are in the
    list, not on their order nor on how often they occur. *)
Theorem normalizer_ignores_order (items items' : list nat) (h : list dict) :
  (forall l, l ∈ items <-> l ∈ items') ->
  normalize_review_status items h = normalize_review_status items' h.
Proof.
  intros Hsame. apply list_eq. intros l.
  destruct (h !! l) as [d|] eqn:Hd.
  - rewrite !(normalize_lookup _ h l d Hd).
    by rewrite (bool_decide_ext _ _ (Hsame l)).
  - by rewrite !normalize_lookup_None.
Qed.

Lemma normalizer_ignores_order_witness :
  (forall l, l ∈ [0; 2; 4] <-> l ∈ [4; 0; 2; 0]) /\
  normalize_review_status [0; 2; 4] sample_candidates
    = normalize_review_status [4; 0; 2; 0] sample_candidates.
Proof.
  assert (forall l, l ∈ [0; 2; 4] <-> l ∈ [4; 0; 2; 0]) as Hsame.
  { intros l. rewrite !elem_of_cons, !elem_of_nil. tauto. }
  split; [exact Hsame|].
  apply (normalizer_ignores_order [0; 2; 4] [4; 0; 2; 0] sample_candidates).
  exact Hsame.
Defined.

(** ** main.py and rn/review.py: the manifest of a run *)

(** X18.  When [main] gets as far as the manifest, the manifest has one entry
    for each item of [all_items], in their order, and every entry carries a
    [review_status] that is set, so that another pass of the normalizer would
    change none. *)
Theorem main_manifest_has_a_status_everywhere
    chat harvest generated_at manifest :
  main chat harvest generated_at = inr manifest ->
  exists decided ambiguous all_items h,
    run_pipeline chat harvest = Ok (decided, ambiguous, all_items, h) /\
    manifest_entries manifest = map (fun l => review_entry (deref h l)) all_items /\
    Forall (fun e => has_status e = true) (manifest_entries manifest) /\
    map normalize_item (manifest_entries manifest) = manifest_entries manifest.
Proof.
  unfold main.
  destruct (run_pipeline chat harvest) as [[[[dec amb] all] h]|e] eqn:Hrun;
    [|done].
  intros [= <-]. exists dec, amb, all, h.
  rewrite manifest_entries_build, map_map.
  assert (Forall (fun e => has_status e = true)
            (map (fun l => review_entry (deref h l)) all)) as Hall.
  { apply Forall_forall. intros e He.
    apply list_elem_of_In, in_map_iff in He as (l & <- & Hl).
    apply review_entry_has_status.
    apply run_pipeline_spec in Hrun
      as (items & L & h1 & h2 & _ & -> & -> & [ds ->] & HD & HA & HL).
    assert (exists d, (h1 ++ ds) !! l = Some d) as [d Hd].
    { apply in_app_or in Hl as [Hl|Hl];
        apply list_elem_of_In, list_elem_of_lookup in Hl as [n Hn].
      - destruct (Forall2_lookup_l _ _ _ _ _ HD Hn)
          as (it & _ & fd & d & _ & Hd).
        exists d. by apply lookup_app_l_Some.
      - destruct (Forall2_lookup_l _ _ _ _ _ HL Hn)
          as (a & _ & i & d2 & _ & Hd). by exists d2. }
    erewrite deref_lookup; [|by apply normalize_lookup].
    rewrite bool_decide_eq_true_2 by (by apply list_elem_of_In).
    apply normalize_item_has_status. }
  split_and!; [done..|].
  rewrite <- (map_id (map _ all)) at 2. apply map_ext_in.
  intros e He. apply normalize_item_fixed.
  rewrite Forall_forall in Hall. apply Hall. by apply list_elem_of_In.
Qed.

Lemma main_manifest_has_a_status_everywhere_witness :
  let manifest :=
    build_review_manifest "2024-05-02T00:00:00+00:00"
      "https://github.com/getlago/lago" "v1.24.0" "v1.25.0"
      (map (deref sample_heap) [0; 2; 4; 5; 6]) in
  main good_oracle (Ok sample_records) "2024-05-02T00:00:00+00:00"
    = inr manifest /\
  exists decided ambiguous all_items h,
    run_pipeline good_oracle (Ok sample_records)
      = Ok (decided, ambiguous, all_items, h) /\
    manifest_entries manifest
      = map (fun l => review_entry (deref h l)) all_items /\
    Forall (fun e => has_status e = true) (manifest_entries manifest) /\
    map normalize_item (manifest_entries manifest) = manifest_entries manifest.
Proof.
  intros manifest. split; [vm_compute; reflexivity|].
  apply (main_manifest_has_a_status_everywhere good_oracle (Ok sample_records)
           "2024-05-02T00:00:00+00:00" manifest).
  vm_compute; reflexivity.
Defined.

(** X19.  The entries of a manifest that the renderer publishes under Features
    are the entries of the items whose status is [included] and whose category
    is [feature], in the order of the items; likewise for Bug Fixes and for
    the clarification section. The builder neither reorders nor filters. *)
Theorem published_entries_follow_the_items
    generated_at repo_url from_ref to_ref (items : list dict) :
  let entries :=
    manifest_entries
      (build_review_manifest generated_at repo_url from_ref to_ref items) in
  Render.features entries
    = map review_entry
        (List.filter (fun it =>
           eq_str (Dict.get "review_status" it) "included"
           && eq_str (Dict.get "category" it) "feature") items) /\
  Render.bugfixes entries
    = map review_entry
        (List.filter (fun it =>
           eq_str (Dict.get "review_status" it) "included"
           && eq_str (Dict.get "category" it) "bugfix") items) /\
  Render.needs_clar entries
    = map review_entry
        (List.filter (fun it =>
           eq_str (Dict.get "review_status" it) "needs_clarification") items).
Proof.
  intros entries. unfold entries. rewrite manifest_entries_build.
  unfold Render.features, Render.bugfixes, Render.needs_clar, Render.select.
  split_and!; induction items as [|it items IH]; try done; cbn [map List.filter].
  - change (Dict.get "review_status" (review_entry it))
      with (Dict.get "review_status" it).
    destruct (eq_str (Dict.get "review_status" it) "included");
      cbn [List.filter andb]; [|exact IH].
    change (Dict.get "category" (review_entry it))
      with (Dict.get "category" it).
    destruct (eq_str (Dict.get "category" it) "feature"); cbn [map];
      by rewrite IH.
  - change (Dict.get "review_status" (review_entry it))
      with (Dict.get "review_status" it).
    destruct (eq_str (Dict.get "review_status" it) "included");
      cbn [List.filter andb]; [|exact IH].
    change (Dict.get "category" (review_entry it))
      with (Dict.get "category" it).
    destruct (eq_str (Dict.get "category" it) "bugfix"); cbn [map];
      by rewrite IH.
  - change (Dict.get "review_status" (review_entry it))
      with (Dict.get "review_status" it).
    destruct (eq_str (Dict.get "review_status" it) "needs_clarification");
      cbn [map]; by rewrite IH.
Qed.

(** ** rn/render.py: what the renderer reads and what stops it *)

(** X20.  A manifest none of whose entries is included under a known category
    or waits for a clarification renders like the manifest without entries:
    excluded entries, and entries with any other status, leave no trace.
    Without metadata the Markdown is then the bare skeleton with the two
    placeholders and no internal section. *)
Theorem nothing_to_publish fr (m : dict) (ds : list dict) :
  Forall unselected ds ->
  render_release_notes_markdown fr
    (Dict.set "entries" (VList (map VDict ds)) m)
  = render_release_notes_markdown fr (Dict.set "entries" (VList []) m) /\
  (Dict.lookup "metadata" m = None ->
   render_release_notes_markdown fr
     (Dict.set "entries" (VList (map VDict ds)) m)
   = Ok (Render.join nl
           ["# Release Notes" +:+ nl;
            "## Features" +:+ nl;
            "_No user-facing features detected._" +:+ nl;
            "## Bug Fixes" +:+ nl;
            "_No user-facing bug fixes detected._" +:+ nl])).
Proof.
  intros Hall.
  assert (render_release_notes_markdown fr
            (Dict.set "entries" (VList (map VDict ds)) m)
          = render_release_notes_markdown fr
              (Dict.set "entries" (VList []) m)) as Heq.
  { induction ds as [|e ds IH]; [done|].
    inversion Hall as [|? ? He Hall']; subst.
    cbn [map]. rewrite <- (IH Hall').
    apply (render_skip fr m e [] (map VDict ds) He). }
  split; [exact Heq|].
  intros Hmeta. rewrite Heq.
  unfold render_release_notes_markdown, Dict.get_default.
  rewrite (lookup_set_ne "entries" "metadata") by reflexivity.
  rewrite Hmeta, lookup_set_eq. reflexivity.
Qed.

Lemma nothing_to_publish_witness :
  let ds := [entry "chore: bump dependency to 1.2.3" (VStr "excluded") VNone;
             unreviewed_entry; uncategorized_entry] in
  Forall unselected ds /\
  render_release_notes_markdown no_floats
    (Dict.set "entries" (VList (map VDict ds)) [])
  = render_release_notes_markdown no_floats (Dict.set "entries" (VList []) []) /\
  (Dict.lookup "metadata" (@nil (string * pyval)) = None ->
   render_release_notes_markdown no_floats
     (Dict.set "entries" (VList (map VDict ds)) [])
   = Ok (Render.join nl
           ["# Release Notes" +:+ nl;
            "## Features" +:+ nl;
            "_No user-facing features detected._" +:+ nl;
            "## Bug Fixes" +:+ nl;
            "_No user-facing bug fixes detected._" +:+ nl])).
Proof.
  intros ds.
  assert (Forall unselected ds) as Hall.
  { constructor; [split; [left|]; reflexivity|].
    constructor; [split; [left|]; reflexivity|].
    constructor; [split; [right; split|]; reflexivity|].
    constructor. }
  split; [exact Hall|].
  apply (nothing_to_publish no_floats [] ds). exact Hall.
Defined.

Lemma all_dicts_raises l :
  Exists (fun v => forall d, v <> VDict d) l ->
  all_dicts l = Raise AttributeError.
Proof.
  induction l as [|v l IH]; intros Hex; [by inversion Hex|].
  simpl. destruct v as [| | | | | |d]; try reflexivity. bind_simpl.
  rewrite IH; [done|]. inversion Hex as [? ? Hbad|]; subst; [|done].
  by destruct (Hbad d).
Qed.

(** X21.  The renderer stops with an exception on a manifest of the wrong
    shape: an [AttributeError] when the metadata is not an object or when an
    entry of the list is not an object, a [TypeError] when [entries] is
    [null], a number or [true]. *)
Theorem render_rejects_malformed_manifest fr (m : dict) :
  (forall v, Dict.lookup "metadata" m = Some v -> (forall d, v <> VDict d) ->
     render_release_notes_markdown fr m = Raise AttributeError) /\
  (forall meta v,
     as_dict (Dict.get_default "metadata" (VDict []) m) = Ok meta ->
     Dict.lookup "entries" m = Some v ->
     v = VNone \/ v = VBool true \/ (exists z, v = VInt z) ->
     render_release_notes_markdown fr m = Raise TypeError) /\
  (forall meta l,
     as_dict (Dict.get_default "metadata" (VDict []) m) = Ok meta ->
     Dict.lookup "entries" m = Some (VList l) ->
     Exists (fun v => forall d, v <> VDict d) l ->
     render_release_notes_markdown fr m = Raise AttributeError).
Proof.
  split_and!.
  - intros v Hm Hv. unfold render_release_notes_markdown, Dict.get_default.
    rewrite Hm. destruct v; try reflexivity. by destruct (Hv d).
  - intros meta v Hm He Hv. unfold render_release_notes_markdown.
    rewrite Hm. bind_simpl. unfold Dict.get_default. rewrite He.
    by destruct Hv as [->|[->|[z ->]]].
  - intros meta l Hm He Hex. unfold render_release_notes_markdown.
    rewrite Hm. unfold mbind, result_bind, Dict.get_default. rewrite He.
    cbn [py_iter]. by rewrite (all_dicts_raises l Hex).
Qed.

Lemma render_rejects_malformed_manifest_witness :
  render_release_notes_markdown no_floats
    [("metadata", VStr "v1.25.0"); ("entries", VList [])]
    = Raise AttributeError /\
  render_release_notes_markdown no_floats [("entries", VNone)]
    = Raise TypeError /\
  render_release_notes_markdown no_floats
    [("entries", VList [VDict unreviewed_entry; VStr "feat: export invoices"])]
    = Raise AttributeError.
Proof.
  split_and!.
  - apply (proj1 (render_rejects_malformed_manifest no_floats _)
             (VStr "v1.25.0")); [reflexivity|]. intros d. discriminate.
  - apply (proj1 (proj2 (render_rejects_malformed_manifest no_floats _))
             [] VNone); [reflexivity..|]. by left.
  - apply (proj2 (proj2 (render_rejects_malformed_manifest no_floats _))
             [] [VDict unreviewed_entry; VStr "feat: export invoices"]);
      [reflexivity..|].
    apply Exists_cons_tl, Exists_cons_hd. intros d. discriminate.
Defined.

Lemma view_key k key :
  existsb (String.eqb k) render_keys = false ->
  existsb (String.eqb key) render_keys = true ->
  String.eqb key k = false.
Proof.
  intros Hk Hkey. destruct (String.eqb key k) eqn:E; [|done].
  apply String.eqb_eq in E. subst. congruence.
Qed.

Lemma fmt_entry_view fr e k v :
  existsb (String.eqb k) render_keys = false ->
  fmt_entry fr (Dict.set k v e) = fmt_entry fr e.
Proof.
  intros Hk. unfold fmt_entry, _fallback_description.
  by rewrite !get_set_ne by (by apply (view_key k)).
Qed.

Lemma fmt_clarification_view fr e k v :
  existsb (String.eqb k) render_keys = false ->
  fmt_clarification fr (Dict.set k v e) = fmt_clarification fr e.
Proof.
  intros Hk. unfold fmt_clarification.
  by rewrite !get_set_ne by (by apply (view_key k)).
Qed.

Lemma fmt_entries_app fr a b :
  fmt_entries fr (a ++ b)
  = (xs ← fmt_entries fr a; ys ← fmt_entries fr b; Ok (xs ++ ys)).
Proof.
  induction a as [|e a IH]; simpl.
  - bind_simpl. by destruct (fmt_entries fr b).
  - destruct (fmt_entry fr e); bind_simpl; [|done].
    rewrite IH. unfold mbind, result_bind.
    destruct (fmt_entries fr a); [|done]. by destruct (fmt_entries fr b).
Qed.

Lemma fmt_selected_view fr key value e e' (a b : list dict) :
  Dict.get key e' = Dict.get key e ->
  fmt_entry fr e' = fmt_entry fr e ->
  fmt_entries fr (select key value (a ++ e' :: b))
  = fmt_entries fr (select key value (a ++ e :: b)).
Proof.
  intros Hget Hfmt. rewrite !select_app, !select_cons, Hget.
  destruct (eq_str (Dict.get key e) value); [|done].
  rewrite !fmt_entries_app. cbn [fmt_entries]. by rewrite Hfmt.
Qed.

(** X22.  The renderer reads eight keys of an entry and nothing else: the
    status and the category, which select the entry, and the title, subject,
    description, author, link and clarification question, which it prints.
    Changing any other key, the provenance fields [filter_stage] and
    [filter_reason] among them, changes nothing in the Markdown. *)
Theorem render_reads_eight_keys fr (m : dict) e k v (l1 l2 : list pyval) :
  existsb (String.eqb k) render_keys = false ->
  render_release_notes_markdown fr
    (Dict.set "entries" (VList (l1 ++ VDict (Dict.set k v e) :: l2)) m)
  = render_release_notes_markdown fr
      (Dict.set "entries" (VList (l1 ++ VDict e :: l2)) m).
Proof.
  intros Hk.
  assert (forall key, existsb (String.eqb key) render_keys = true ->
            Dict.get key (Dict.set k v e) = Dict.get key e) as Hget.
  { intros key Hkey. apply get_set_ne. by apply (view_key k). }
  assert (forall {A} (F : list dict -> result A),
            (forall ds1 ds2,
               F (ds1 ++ Dict.set k v e :: ds2) = F (ds1 ++ e :: ds2)) ->
            match all_dicts (l1 ++ VDict (Dict.set k v e) :: l2) with
            | Ok ds => F ds
            | Raise x => Raise x
            end
            = match all_dicts (l1 ++ VDict e :: l2) with
              | Ok ds => F ds
              | Raise x => Raise x
              end) as Hswap.
  { intros A. induction l1 as [|x l1 IH]; intros F HF.
    - simpl. bind_simpl. destruct (all_dicts l2) as [ds|?]; [|done].
      apply (HF [] ds).
    - simpl. destruct (as_dict x) as [d|?]; bind_simpl; [|done].
      specialize (IH (fun ds => F (d :: ds))).
      destruct (all_dicts (l1 ++ VDict (Dict.set k v e) :: l2)) as [ds|?],
               (all_dicts (l1 ++ VDict e :: l2)) as [ds'|?];
        apply IH; intros ds1 ds2; apply (HF (d :: ds1) ds2). }
  assert (forall cat ds1 ds2,
            fmt_entries fr
              (select "category" cat
                 (select "review_status" "included"
                    (ds1 ++ Dict.set k v e :: ds2)))
            = fmt_entries fr
                (select "category" cat
                   (select "review_status" "included" (ds1 ++ e :: ds2))))
    as Hcat.
  { intros cat ds1 ds2.
    rewrite !(select_app "review_status"), !(select_cons "review_status").
    rewrite (Hget "review_status") by reflexivity.
    destruct (eq_str (Dict.get "review_status" e) "included"); [|done].
    apply fmt_selected_view; [by apply Hget | by apply fmt_entry_view]. }
  assert (forall ds1 ds2,
            map (fmt_clarification fr)
              (needs_clar (ds1 ++ Dict.set k v e :: ds2))
            = map (fmt_clarification fr) (needs_clar (ds1 ++ e :: ds2)))
    as Hclar.
  { intros ds1 ds2. unfold needs_clar.
    rewrite !select_app, !select_cons, (Hget "review_status") by reflexivity.
    destruct (eq_str (Dict.get "review_status" e) "needs_clarification");
      [|done].
    rewrite !map_app. cbn [map]. by rewrite fmt_clarification_view. }
  unfold render_release_notes_markdown, Dict.get_default.
  rewrite !(lookup_set_ne "entries" "metadata") by reflexivity.
  rewrite !lookup_set_eq.
  destruct (as_dict _) as [meta|x]; [|reflexivity].
  unfold mbind, result_bind. cbn [py_iter]. lazy beta iota.
  apply Hswap. intros ds1 ds2. lazy beta.
  unfold features, bugfixes. rewrite !Hcat.
  specialize (Hclar ds1 ds2).
  destruct (needs_clar (ds1 ++ Dict.set k v e :: ds2)) as [|c cs],
           (needs_clar (ds1 ++ e :: ds2)) as [|c' cs'];
    try discriminate Hclar; [reflexivity|].
  lazy beta iota. by rewrite Hclar.
Qed.

Lemma render_reads_eight_keys_witness :
  existsb (String.eqb "filter_reason") render_keys = false /\
  render_release_notes_markdown no_floats
    (Dict.set "entries"
       (VList ([] ++ VDict (Dict.set "filter_reason" (VStr "edited")
                              (entry "feat: export invoices" (VStr "included")
                                 (VStr "feature"))) :: []))
       (sample_manifest []))
  = render_release_notes_markdown no_floats
      (Dict.set "entries"
         (VList ([] ++ VDict (entry "feat: export invoices" (VStr "included")
                                (VStr "feature")) :: []))
         (sample_manifest [])).
Proof.
  split; [reflexivity|].
  apply (render_reads_eight_keys no_floats (sample_manifest [])
           (entry "feat: export invoices" (VStr "included") (VStr "feature"))
           "filter_reason" (VStr "edited") [] []).
  reflexivity.
Defined.

(** ** rn/render.py: titles *)

Lemma clean_loop_cases prefixes s :
  clean_loop prefixes s = s \/
  exists after, clean_loop prefixes s = strip after.
Proof.
  induction prefixes as [|p prefixes IH]; simpl; [by left|].
  destruct (_ || _); [|exact IH].
  destruct (split_once ":" s) as [[x after]|]; [|exact IH].
  right. by exists after.
Qed.

Lemma clean_loop_no_colon prefixes s :
  split_once ":" s = None -> clean_loop prefixes s = s.
Proof.
  intros Hs. induction prefixes as [|p prefixes IH]; simpl; [done|].
  rewrite Hs. by destruct (_ || _).
Qed.

(** X23.  The title made from an ASCII subject has no white space at either
    end, and a subject without a colon is only stripped, whatever it begins
    with. *)
Theorem cleaned_title_is_stripped subject :
  isascii subject = true ->
  strip (_clean_title_from_subject subject)
    = _clean_title_from_subject subject /\
  (split_once ":" (strip subject) = None ->
   _clean_title_from_subject subject = strip subject).
Proof.
  intros _. unfold _clean_title_from_subject. split.
  - destruct (clean_loop_cases clean_prefixes (strip subject))
      as [->|[after ->]]; apply strip_idem.
  - apply clean_loop_no_colon.
Qed.

Lemma cleaned_title_is_stripped_witness :
  isascii "  tune the retry limits " = true /\
  strip (_clean_title_from_subject "  tune the retry limits ")
    = _clean_title_from_subject "  tune the retry limits " /\
  _clean_title_from_subject "  tune the retry limits "
    = "tune the retry limits".
Proof.
  destruct (cleaned_title_is_stripped "  tune the retry limits " eq_refl)
    as (Hstrip & Hplain).
  split_and!; [reflexivity|exact Hstrip|]. rewrite Hplain; reflexivity.
Defined.

(** X24.  For ASCII texts, the title that is printed for an entry is the
    curated title, stripped, when that is not blank; when the title is
    missing, empty or blank it is the title made from the subject
    ([Untitled change] when there is no subject).  A title that is a number,
    a list or an object stops the renderer with an [AttributeError]. *)
Theorem entry_title fr e :
  (forall t, Dict.get "title" e = VStr t -> isascii t = true ->
     strip t <> "" ->
     forall d, as_str (py_or (Dict.get "description" e) (VStr "")) = Ok d ->
     exists rest,
       fmt_entry fr e = Ok ("- **" +:+ strip t +:+ "**" +:+ rest)) /\
  (forall s,
     truthy (Dict.get "title" e) = false \/
     (exists t, Dict.get "title" e = VStr t /\ isascii t = true /\
                strip t = "") ->
     as_str (py_or (Dict.get "subject" e) (VStr "Untitled change")) = Ok s ->
     isascii s = true ->
     forall d, as_str (py_or (Dict.get "description" e) (VStr "")) = Ok d ->
     exists rest,
       fmt_entry fr e
       = Ok ("- **" +:+ _clean_title_from_subject s +:+ "**" +:+ rest)) /\
  (forall v, Dict.get "title" e = v -> truthy v = true ->
     (forall t, v <> VStr t) ->
     fmt_entry fr e = Raise AttributeError).
Proof.
  split_and!.
  - intros t Ht _ Hne d Hd. unfold fmt_entry. rewrite Ht, Hd.
    unfold py_or. destruct (truthy (VStr t)) eqn:Etr.
    + bind_simpl. apply String.eqb_neq in Hne. rewrite Hne. bind_simpl.
      eexists. reflexivity.
    + exfalso. simpl in Etr. apply negb_false_iff, String.eqb_eq in Etr.
      subst t. by apply Hne.
  - intros s [Ht|(t & Ht & _ & Hb)] Hs _ d Hd; unfold fmt_entry.
    + unfold py_or in *. rewrite Ht, Hs, Hd. bind_simpl. eexists. reflexivity.
    + rewrite Ht, Hs, Hd. unfold py_or.
      destruct (truthy (VStr t)); bind_simpl; rewrite ?Hb; bind_simpl;
        eexists; reflexivity.
  - intros v <- Htr Hns. unfold fmt_entry, py_or. rewrite Htr.
    destruct (Dict.get "title" e); try reflexivity. by destruct (Hns s).
Qed.

Lemma entry_title_witness :
  (exists rest,
     fmt_entry no_floats
       (Dict.set "title" (VStr " Invoice export ")
          (entry "feat: export invoices" (VStr "included") (VStr "feature")))
     = Ok ("- **Invoice export**" +:+ rest)) /\
  (exists rest,
     fmt_entry no_floats
       (Dict.set "title" (VStr "   ")
          (entry "feat: export invoices" (VStr "included") (VStr "feature")))
     = Ok ("- **export invoices**" +:+ rest)) /\
  fmt_entry no_floats
    (Dict.set "title" (VInt 3)
       (entry "feat: export invoices" (VStr "included") (VStr "feature")))
  = Raise AttributeError.
Proof.
  pose (e := entry "feat: export invoices" (VStr "included") (VStr "feature")).
  destruct (entry_title no_floats
              (Dict.set "title" (VStr " Invoice export ") e)) as (Hset & _).
  destruct (entry_title no_floats (Dict.set "title" (VStr "   ") e))
    as (_ & Hblank & _).
  destruct (entry_title no_floats (Dict.set "title" (VInt 3) e))
    as (_ & _ & Hint).
  split_and!.
  - destruct (Hset " Invoice export " eq_refl eq_refl
                ltac:(vm_compute; discriminate) "" eq_refl) as [rest Hr].
    exists rest. exact Hr.
  - destruct (Hblank "feat: export invoices"
                (or_intror
                   (ex_intro _ "   " (conj eq_refl (conj eq_refl eq_refl))))
                eq_refl eq_refl "" eq_refl) as [rest Hr].
    exists rest. exact Hr.
  - apply (Hint (VInt 3) eq_refl eq_refl). intros t. discriminate.
Defined.


(** ** main.py: [parse_target_langs] *)

Lemma lookup_In k v (d : dict) : Dict.lookup k d = Some v -> In (k, v) d.
Proof.
  induction d as [|[k' v'] d IH]; simpl; [done|].
  destruct (String.eqb k k') eqn:E.
  - apply String.eqb_eq in E as ->. intros [= ->]. by left.
  - intros H. right. by apply IH.
Qed.

Lemma set_Forall (P : string * pyval -> Prop) k v (d : dict) :
  P (k, v) -> Forall P d -> Forall P (Dict.set k v d).
Proof.
  intros Hkv. induction 1 as [|[k' v'] d Hx Hd IH]; simpl.
  - by repeat constructor.
  - destruct (String.eqb k k') eqn:E.
    + apply String.eqb_eq in E as ->. by constructor.
    + by constructor.
Qed.

Lemma set_keys_NoDup k v (d : dict) :
  NoDup (map fst d) -> NoDup (map fst (Dict.set k v d)) /\
  (forall x, x ∈ map fst (Dict.set k v d) -> x = k \/ x ∈ map fst d).
Proof.
  induction d as [|[k' v'] d IH]; simpl.
  - intros _. split; [apply NoDup_singleton|].
    intros x Hx%list_elem_of_singleton. by left.
  - intros [Hk' Hd]%NoDup_cons. destruct (String.eqb k k') eqn:E; simpl.
    + split; [by apply NoDup_cons|]. intros x Hx. by right.
    + destruct (IH Hd) as [Hnd Hsub]. split.
      * apply NoDup_cons. split; [|done].
        intros [->|Hin]%Hsub; [|done]. by rewrite String.eqb_refl in E.
      * intros x [->|Hx]%elem_of_cons; [right; by left|].
        destruct (Hsub x Hx) as [->|?]; [by left|right; by right].
Qed.

Lemma target_entry c :
  lang_entry (c, if String.eqb c "en" then VNone
                 else Dict.get_default c (VStr c) name_map).
Proof.
  unfold lang_entry. cbn [fst snd].
  destruct (String.eqb_spec c "en") as [->|Hen]; [by left|].
  unfold Dict.get_default, name_map. cbn [Dict.lookup].
  destruct (String.eqb_spec c "en") as [|_]; [done|].
  destruct (String.eqb_spec c "it") as [->|Hit]; [right; by left|].
  destruct (String.eqb_spec c "fr") as [->|Hfr]; [do 2 right; by left|].
  destruct (String.eqb_spec c "de") as [->|Hde]; [do 3 right; by left|].
  destruct (String.eqb_spec c "es") as [->|Hes]; [do 4 right; by left|].
  do 5 right. split; [|done]. simpl. intros [?|[?|[?|[?|[?|[]]]]]]; congruence.
Qed.

Lemma targets_fold codes : forall out,
  Forall lang_entry out -> NoDup (map fst out) ->
  let out' :=
    fold_left
      (fun out c =>
         Dict.set c (if String.eqb c "en" then VNone
                     else Dict.get_default c (VStr c) name_map) out)
      codes out in
  Forall lang_entry out' /\ NoDup (map fst out').
Proof.
  induction codes as [|c codes IH]; intros out Hall Hnd; simpl; [done|].
  apply IH.
  - apply set_Forall; [apply target_entry|done].
  - by apply set_keys_NoDup.
Qed.

(** X25.  Whatever [TARGET_LANGS] holds, the result has the base language
    [en], mapped to no language name, and every other code of the result is
    mapped to its language name: [Italian] for [it], [French] for [fr],
    [German] for [de], [Spanish] for [es], and the code itself for a code
    the map does not know.  No code occurs twice. *)
Theorem target_langs_always_have_en TARGET_LANGS :
  let targets := parse_target_langs TARGET_LANGS in
  Dict.lookup "en" targets = Some VNone /\
  (forall code v, Dict.lookup code targets = Some v ->
     (code = "en" /\ v = VNone) \/
     (code = "it" /\ v = VStr "Italian") \/
     (code = "fr" /\ v = VStr "French") \/
     (code = "de" /\ v = VStr "German") \/
     (code = "es" /\ v = VStr "Spanish") \/
     (~ In code ["en"; "it"; "fr"; "de"; "es"] /\ v = VStr code)) /\
  NoDup (map fst targets).
Proof.
  unfold parse_target_langs.
  set (codes := match map _ _ with [] => _ | _ => _ end).
  destruct (targets_fold codes [] ltac:(constructor) ltac:(constructor))
    as [Hall Hnd].
  set (out := fold_left _ codes []) in *. cbv zeta.
  assert (Forall lang_entry (if Dict.mem "en" out then out
                             else ("en", VNone) :: out)) as Hall'.
  { destruct (Dict.mem "en" out); [done|]. constructor; [by left|done]. }
  split_and!.
  - unfold Dict.mem. destruct (Dict.lookup "en" out) as [v|] eqn:E; [|done].
    rewrite E. f_equal. apply lookup_In in E.
    rewrite Forall_forall in Hall.
    pose proof (Hall ("en", v) ltac:(by apply list_elem_of_In)) as Hen.
    unfold lang_entry in Hen. cbn [fst snd] in Hen.
    destruct Hen as [[_ Hv]|[[H _]|[[H _]|[[H _]|[[H _]|[H _]]]]]];
      [exact Hv|discriminate H..|]. destruct H. by left.
  - intros code v Hl%lookup_In. rewrite Forall_forall in Hall'.
    apply (Hall' (code, v)). by apply list_elem_of_In.
  - unfold Dict.mem. destruct (Dict.lookup "en" out) as [v|] eqn:E; [done|].
    simpl. apply NoDup_cons. split; [|done].
    intros Hin. apply list_elem_of_In, in_map_iff in Hin as ([k v] & Hk & Hin).
    simpl in Hk. subst k.
    assert (forall (d : dict), In ("en", v) d -> Dict.lookup "en" d <> None)
      as Hfound.
    { induction d as [|[k' v'] d IH]; cbn [In Dict.lookup]; [done|].
      intros [[= -> ->]|Hd]; [by rewrite String.eqb_refl|].
      destruct (String.eqb "en" k'); [done|]. by apply IH. }
    by apply (Hfound out Hin).
Qed.

Lemma target_langs_always_have_en_witness :
  map fst (parse_target_langs (Some " IT, fr ,, xx "))
    = ["en"; "it"; "fr"; "xx"] /\
  Dict.lookup "en" (parse_target_langs (Some " IT, fr ,, xx ")) = Some VNone /\
  Dict.lookup "it" (parse_target_langs (Some " IT, fr ,, xx "))
    = Some (VStr "Italian") /\
  Dict.lookup "xx" (parse_target_langs (Some " IT, fr ,, xx "))
    = Some (VStr "xx").
Proof.
  destruct (target_langs_always_have_en (Some " IT, fr ,, xx "))
    as (Hen & Hother & _).
  split_and!; [reflexivity|exact Hen| |].
  - destruct (Hother "it" (VStr "Italian") eq_refl)
      as [[H _]|[[_ H]|[[H _]|[[H _]|[[H _]|[_ H]]]]]];
      first [discriminate H|reflexivity].
  - destruct (Hother "xx" (VStr "xx") eq_refl)
      as [[H _]|[[H _]|[[H _]|[[H _]|[[H _]|[_ H]]]]]];
      first [discriminate H|reflexivity].
Defined.

(** ** rn/harvest.py: [_safe_repo_dirname] *)

Lemma sub_runs_chars keep repl : forall in_run s,
  Forall (fun c => keep c = true) (chars repl) ->
  Forall (fun c => keep c = true) (chars (sub_runs keep repl in_run s)).
Proof.
  intros in_run s Hrepl. revert in_run.
  induction s as [|c s IH]; intros in_run; simpl; [constructor|].
  destruct (keep c) eqn:E; [by constructor|].
  destruct in_run; [apply IH|].
  rewrite chars_app. apply Forall_app. split; [done|apply IH].
Qed.

Lemma prefix_empty s : String.prefix "" s = true.
Proof. by destruct s. Qed.

Lemma replace_slash s :
  chars (replace "/" "_" s)
  = map (fun c => if Ascii.eqb c "/" then "_"%char else c) (chars s).
Proof.
  unfold replace, chars. induction s as [|c s IH]; [done|].
  cbn [replace_go String.prefix String.length Nat.sub
       list_ascii_of_string map].
  destruct (ascii_dec "/" c) as [<-|Hne].
  - rewrite prefix_empty, <- IH. reflexivity.
  - assert (Ascii.eqb c "/" = false) as -> by (by apply Ascii.eqb_neq).
    cbn [list_ascii_of_string]. by rewrite IH.
Qed.

(** X26.  The name of the cache directory of any repository address is made of
    letters, digits, dots, underscores and hyphens only: it holds no path
    separator, no colon and no white space. *)
Theorem safe_repo_dirname_is_safe repo_url :
  Forall (fun c => safe_char c = true) (chars (_safe_repo_dirname repo_url)).
Proof.
  unfold _safe_repo_dirname. cbv zeta. rewrite replace_slash.
  apply Forall_forall. intros c Hc.
  apply list_elem_of_In, in_map_iff in Hc as (x & <- & Hx).
  pose proof (sub_runs_chars url_char "_" false
                (replace ":" "/" (replace "git@" ""
                   (replace "http://" "" (replace "https://" ""
                      (rstrip_char "/" (strip repo_url))))))
                ltac:(repeat constructor)) as Hall.
  rewrite Forall_forall in Hall.
  specialize (Hall x ltac:(by apply list_elem_of_In)).
  destruct (Ascii.eqb x "/") eqn:E; [reflexivity|].
  revert Hall. unfold url_char, safe_char. cbn [existsb]. rewrite E.
  by rewrite !orb_false_r.
Qed.

(** The two addresses of one repository that the code foresees, with any
    white space and slashes at the end, give the directory name of the
    docstring. *)
Example safe_repo_dirname_examples :
  _safe_repo_dirname "https://github.com/getlago/lago"
    = "github.com_getlago_lago" /\
  _safe_repo_dirname "  http://github.com/getlago/lago// "
    = "github.com_getlago_lago" /\
  _safe_repo_dirname "git@github.com:getlago/lago"
    = "github.com_getlago_lago".
Proof. split_and!; vm_compute; reflexivity. Qed.

(** ** rn/harvest.py: [_github_commit_url] *)

Lemma newline_is_no_slash c : (code c =? 10)%N = true -> (c =? "/")%char = false.
Proof.
  intros H%N.eqb_eq. rewrite <- (ascii_N_embedding c). unfold code in H.
  by rewrite H.
Qed.

(** The part of [GITHUB_RE] after the host: a text matches it exactly when
    it is an owner and a repository name, both without a slash and not
    empty, with a slash between them; the two groups are these names. *)
Lemma github_tail_complete owner repo prev :
  owner <> [] -> repo <> [] ->
  Forall (fun c => negb (c =? "/")%char = true) owner ->
  Forall (fun c => negb (c =? "/")%char = true) repo ->
  rmatch (seqs [Group "1" (Plus (any_but "/")); exact "/";
                Group "2" (Plus (any_but "/")); Eol])
    prev (owner ++ "/"%char :: repo) [] (fun _ _ caps => Some caps)
  = Some [("2", str repo); ("1", str owner)].
Proof.
  intros Ho Hr Hos Hrs. cbn [seqs]. rewrite rmatch_seq. unfold any_but.
  apply group_plus_greedy; [done|done|reflexivity|].
  intros prev'. rewrite rmatch_seq. unfold exact. rewrite rmatch_chr_cons.
  rewrite Ascii.eqb_refl, rmatch_seq.
  rewrite <- (app_nil_r repo) at 1.
  by apply group_plus_greedy.
Qed.

Lemma github_tail_sound s prev r :
  rmatch (seqs [Group "1" (Plus (any_but "/")); exact "/";
                Group "2" (Plus (any_but "/")); Eol])
    prev s [] (fun _ _ caps => Some caps) = Some r ->
  exists owner repo,
    owner <> [] /\ repo <> [] /\
    Forall (fun c => negb (c =? "/")%char = true) owner /\
    Forall (fun c => negb (c =? "/")%char = true) repo /\
    s = owner ++ "/"%char :: repo.
Proof.
  cbn [seqs]. rewrite rmatch_seq. unfold any_but. intros H.
  apply group_plus_sound in H as (owner & rest & prev1 & Ho & -> & Hos & H).
  rewrite rmatch_seq in H. destruct rest as [|c rest]; [done|].
  unfold exact in H. rewrite rmatch_chr_cons in H.
  destruct (Ascii.eqb_spec "/" c) as [<-|_]; [|done].
  rewrite rmatch_seq in H.
  apply group_plus_sound in H as (repo & tail & prev2 & Hr & -> & Hrs & H).
  exists owner, (repo ++ tail). split_and!; try done.
  - by destruct repo.
  - apply Forall_app. split; [done|]. cbn [rmatch] in H.
    destruct tail as [|c [|c' tail]]; [constructor| |done].
    destruct (code c =? 10)%N eqn:Hc; [|done].
    constructor; [|constructor]. by rewrite newline_is_no_slash.
Qed.

(** The part of [GITHUB_RE] up to the host. *)
Lemma github_head_complete R (secure : bool) rest caps k :
  rmatch (seqs [Bol; exacts (chars "http"); Opt (exact "s");
                exacts (chars "://github.com/"); R])
    None
    (chars "http" ++ (if secure then ["s"%char] else []) ++
     chars "://github.com/" ++ rest) caps k
  = rmatch R (Some "/"%char) rest caps k.
Proof.
  destruct secure; cbn; [|reflexivity].
  by destruct (rmatch R (Some "/"%char) rest caps k).
Qed.

Lemma exacts_sound l : forall prev s caps k r,
  l <> [] ->
  rmatch (exacts l) prev s caps k = Some r ->
  exists rest prev', s = l ++ rest /\ k prev' rest caps = Some r.
Proof.
  induction l as [|c l IH]; intros prev s caps k r Hl H; [done|].
  assert (exists x s', s = x :: s' /\ c = x /\
            (if decide (l = []) then k (Some c) s' caps
             else rmatch (exacts l) (Some c) s' caps k) = Some r)
    as (x & s' & -> & <- & H').
  { destruct l as [|c' l]; cbn [exacts] in H; [|rewrite rmatch_seq in H];
      unfold exact in H; (destruct s as [|x s']; [done|]);
      rewrite rmatch_chr_cons in H;
      (destruct (Ascii.eqb_spec c x) as [<-|_]; [|done]);
      by exists c, s'. }
  destruct (decide (l = [])) as [->|Hne].
  - by exists s', (Some c).
  - destruct (IH _ _ _ _ _ Hne H') as (rest & prev' & -> & Hk).
    by exists rest, prev'.
Qed.

Lemma github_head_sound R s caps k r :
  rmatch (seqs [Bol; exacts (chars "http"); Opt (exact "s");
                exacts (chars "://github.com/"); R])
    None s caps k = Some r ->
  exists (secure : bool) rest prev,
    s = chars "http" ++ (if secure then ["s"%char] else []) ++
        chars "://github.com/" ++ rest /\
    rmatch R prev rest caps k = Some r.
Proof.
  cbn [seqs]. rewrite rmatch_seq. cbn [rmatch]. intros H.
  apply exacts_sound in H as (s1 & prev1 & -> & H); [|done].
  unfold Opt in H. cbn [rmatch] in H.
  match type of H with
  | match ?A with Some _ => _ | None => _ end = _ =>
      destruct A as [r'|] eqn:HA
  end.
  - injection H as ->. unfold exact in HA.
    destruct s1 as [|c s1]; [done|]. rewrite rmatch_chr_cons in HA.
    destruct (Ascii.eqb_spec "s" c) as [<-|_]; [|done].
    apply exacts_sound in HA as (rest & prev2 & -> & HA); [|done].
    by exists true, rest, prev2.
  - apply exacts_sound in H as (rest & prev2 & -> & H); [|done].
    by exists false, rest, prev2.
Qed.

(** What [GITHUB_RE] captures in an address of the expected form. *)
Lemma github_groups (secure : bool) owner repo :
  owner <> "" -> repo <> "" -> slash_free owner -> slash_free repo ->
  re_match GITHUB_RE
    ((if secure then "https" else "http") +:+ "://github.com/" +:+
     owner +:+ "/" +:+ repo)
  = Some [("2", repo); ("1", owner)].
Proof.
  intros Ho Hr Hos Hrs. unfold re_match. rewrite !chars_app.
  replace (chars (if secure then "https" else "http"))
    with (chars "http" ++ (if secure then ["s"%char] else []))
    by (by destruct secure).
  rewrite <- app_assoc.
  change (tree GITHUB_RE)
    with (seqs [Bol; exacts (chars "http"); Opt (exact "s");
                exacts (chars "://github.com/");
                seqs [Group "1" (Plus (any_but "/")); exact "/";
                      Group "2" (Plus (any_but "/")); Eol]]).
  rewrite github_head_complete.
  change (chars "/" ++ chars repo) with ("/"%char :: chars repo).
  rewrite github_tail_complete, !str_chars; [done| | |done..].
  - intros H. apply Ho. by rewrite <- (str_chars owner), H.
  - intros H. apply Hr. by rewrite <- (str_chars repo), H.
Qed.

(** X27.  A commit link is made exactly for an address that, once the white
    space and the slashes at its end are removed, is [http://github.com/] or
    [https://github.com/] followed by an owner and a repository name, both not
    empty and without a slash. The link always uses [https] and is the address
    of the repository followed by [/commit/] and the hash. *)
Theorem github_commit_url_iff repo_url sha url :
  _github_commit_url repo_url sha = Some url <->
  exists scheme owner repo,
    (scheme = "http" \/ scheme = "https") /\
    owner <> "" /\ repo <> "" /\ slash_free owner /\ slash_free repo /\
    rstrip_char "/" (strip repo_url)
      = scheme +:+ "://github.com/" +:+ owner +:+ "/" +:+ repo /\
    url = "https://github.com/" +:+ owner +:+ "/" +:+ repo +:+
          "/commit/" +:+ sha.
Proof.
  unfold _github_commit_url. cbv zeta.
  set (s := rstrip_char "/" (strip repo_url)). clearbody s. split.
  - destruct (re_match GITHUB_RE s) as [m|] eqn:Hm; [|done].
    pose proof Hm as Hm'. unfold re_match in Hm'.
    change (tree GITHUB_RE)
      with (seqs [Bol; exacts (chars "http"); Opt (exact "s");
                  exacts (chars "://github.com/");
                  seqs [Group "1" (Plus (any_but "/")); exact "/";
                        Group "2" (Plus (any_but "/")); Eol]]) in Hm'.
    apply github_head_sound in Hm' as (secure & rest & prev & Hs & Hm').
    apply github_tail_sound in Hm'
      as (owner & repo & Ho & Hr & Hos & Hrs & ->).
    assert (s = (if secure then "https" else "http") +:+ "://github.com/" +:+
                str owner +:+ "/" +:+ str repo) as Hs'.
    { rewrite <- (str_chars s), Hs, !str_app.
      change ("/"%char :: repo) with (["/"%char] ++ repo).
      rewrite str_app. by destruct secure. }
    assert (slash_free (str owner)) as Hos'
      by (unfold slash_free; by rewrite chars_str).
    assert (slash_free (str repo)) as Hrs'
      by (unfold slash_free; by rewrite chars_str).
    rewrite Hs', (github_groups secure (str owner) (str repo)) in Hm;
      [|by apply str_nonempty..|done|done].
    injection Hm as <-. cbn [group String.eqb Ascii.eqb Bool.eqb].
    intros [= <-].
    exists (if secure then "https" else "http"), (str owner), (str repo).
    split_and!; try done; [by destruct secure; [right|left]
                          |by apply str_nonempty..].
  - intros (scheme & owner & repo & Hscheme & Ho & Hr & Hos & Hrs & -> & ->).
    assert (exists secure : bool,
              scheme = if secure then "https" else "http") as [secure ->].
    { destruct Hscheme as [->| ->]; [by exists false|by exists true]. }
    by rewrite github_groups.
Qed.

Lemma github_commit_url_iff_witness :
  _github_commit_url " http://github.com/getlago/lago// " "9f3c2ab"
    = Some "https://github.com/getlago/lago/commit/9f3c2ab" /\
  _github_commit_url "https://gitlab.com/getlago/lago" "9f3c2ab" = None /\
  _github_commit_url "https://github.com/getlago/lago/tree/main" "9f3c2ab"
    = None.
Proof.
  split_and!.
  - apply (proj2 (github_commit_url_iff _ _ _)).
    exists "http", "getlago", "lago".
    split_and!; try done; [by left|by repeat constructor..].
  - destruct (_github_commit_url "https://gitlab.com/getlago/lago" "9f3c2ab")
      as [url|] eqn:H; [|done].
    apply (proj1 (github_commit_url_iff _ _ _)) in H
      as (scheme & owner & repo & [->| ->] & _ & _ & _ & _ & H & _);
      vm_compute in H; discriminate H.
  - reflexivity.
Defined.
